(** * The todo backend's server wiring (backend/src/index.js)

    A shallow embedding of index.js: the prom-client counter and registry it
    creates, the Express application stack it registers (middleware and
    routes, in registration order), the bootstrap promise chain on
    [db.init()], and the signal handlers that run [gracefulShutdown].

    The persistence module and the five route handler modules are required by
    index.js but live in other files; they appear here only through what
    index.js does with them: the promises [db.init()] and [db.teardown()]
    settle as the environment decides, and an API route hands the request to
    a handler known by its name. *)

From Stdlib Require Import String Ascii List Bool NArith ZArith Lia DecimalString.
Import ListNotations.
Open Scope string_scope.

(** ** JavaScript strings, as far as index.js and the router use them *)
Module JS.

(** [s.startsWith(p)] *)
Definition startsWith (s p : string) : bool := String.prefix p s.

Definition lower_ascii (c : ascii) : ascii :=
  let n := nat_of_ascii c in
  if (65 <=? n)%nat && (n <=? 90)%nat then ascii_of_nat (n + 32) else c.

(** [s.toLowerCase()] on the ASCII letters, which is all that the
    case-insensitive path matching of the router can fold. *)
Fixpoint toLowerCase (s : string) : string :=
  match s with
  | EmptyString => EmptyString
  | String c s' => String (lower_ascii c) (toLowerCase s')
  end.

Definition upper_ascii (c : ascii) : ascii :=
  let n := nat_of_ascii c in
  if (97 <=? n)%nat && (n <=? 122)%nat then ascii_of_nat (n - 32) else c.

(** [s.toUpperCase()] on the ASCII letters. *)
Fixpoint toUpperCase (s : string) : string :=
  match s with
  | EmptyString => EmptyString
  | String c s' => String (upper_ascii c) (toUpperCase s')
  end.

(** [s.split(sep)] for a one-character separator. *)
Fixpoint split (sep : ascii) (s : string) : list string :=
  match s with
  | EmptyString => [EmptyString]
  | String c s' =>
      if Ascii.eqb c sep then EmptyString :: split sep s'
      else match split sep s' with
           | [] => [String c EmptyString]
           | w :: ws => String c w :: ws
           end
  end.

(** The decimal text of a count, as a template literal prints it. *)
Definition numberToString (n : N) : string :=
  NilZero.string_of_uint (N.to_uint n).

Fixpoint join (sep : string) (l : list string) : string :=
  match l with
  | [] => EmptyString
  | [x] => x
  | x :: l' => x ++ sep ++ join sep l'
  end.

End JS.

(** ** prom-client: a counter with one label, and a registry *)
Module PromClient.

Definition newline : string := String (ascii_of_nat 10) EmptyString.
Definition dquote : string := String (ascii_of_nat 34) EmptyString.
Definition backslash : string := String (ascii_of_nat 92) EmptyString.

(** The per-label-value table of a counter. prom-client keeps it in an
    object keyed by the hash of the label set; with the single label
    ['method'] that key is the label's value, and the object keeps its keys
    in insertion order. The counts are JavaScript numbers that only ever
    grow by 1 from 0; they are naturals here, which is exact below 2^53. *)
Definition hashMap := list (string * N).

Record Counter := mkCounter {
  name : string;
  help : string;
  labelNames : list string;
  values : hashMap
}.

Fixpoint get (m : string) (h : hashMap) : N :=
  match h with
  | [] => 0%N
  | (k, v) :: h' => if String.eqb k m then v else get m h'
  end.

(** [counter.inc({method: m})]: add 1 to the entry of [m], creating it at
    the end of the table when the label value is new. *)
Fixpoint inc_hashMap (m : string) (h : hashMap) : hashMap :=
  match h with
  | [] => [(m, 1%N)]
  | (k, v) :: h' =>
      if String.eqb k m then (k, (v + 1)%N) :: h'
      else (k, v) :: inc_hashMap m h'
  end.

Definition inc (m : string) (c : Counter) : Counter :=
  mkCounter (name c) (help c) (labelNames c) (inc_hashMap m (values c)).

(** A registry is the list of the metrics registered with it. *)
Definition Registry := list Counter.

Definition registerMetric (c : Counter) (r : Registry) : Registry := (r ++ [c])%list.

(** [register.contentType] of the text exposition format. *)
Definition contentType : string := "text/plain; version=0.0.4; charset=utf-8".

Fixpoint escapeLabelValue (s : string) : string :=
  match s with
  | EmptyString => EmptyString
  | String c s' =>
      let n := nat_of_ascii c in
      (if (n =? 92)%nat then backslash ++ backslash
       else if (n =? 10)%nat then backslash ++ "n"
       else if (n =? 34)%nat then backslash ++ dquote
       else String c EmptyString) ++ escapeLabelValue s'
  end.

Definition sampleLine (c : Counter) (kv : string * N) : string :=
  name c ++ "{" ++
    JS.join "," (map (fun l => l ++ "=" ++ dquote ++ escapeLabelValue (fst kv) ++ dquote)
                     (labelNames c))
  ++ "} " ++ JS.numberToString (snd kv).

(** The HELP line, the TYPE line, then one sample line for each label
    value that was ever incremented. *)
Definition metricAsString (c : Counter) : string :=
  JS.join newline
    (("# HELP " ++ name c ++ " " ++ help c)
     :: ("# TYPE " ++ name c ++ " counter")
     :: map (sampleLine c) (values c)).

(** [register.metrics()] *)
Definition metrics (r : Registry) : string :=
  JS.join (newline ++ newline) (map metricAsString r) ++ newline.

End PromClient.

(** ** Express: the application stack and its dispatch loop *)
Module Express.

(** What the stack looks at in a request. [body_error] is the verdict of
    the body parser on the request body: [Some status] when it rejects the
    body (malformed JSON under a JSON content type gives 400), [None] when
    there is nothing to parse or the body parses. *)
Record Request := mkRequest {
  method : string;
  path : string;
  body_error : option N
}.

(** How a middleware or a route handler hands control back. *)
Inductive Completion :=
| Next                      (* next() *)
| NextError (status : N)    (* next(err) *)
| Ended.                    (* the response was ended; next is not called *)

(** A layer of the stack: [app.use(f)] or [app.VERB(pattern, f)]. *)
Inductive Layer (Callback : Type) :=
| Use (f : Callback)
| Route (verb : string) (pattern : string) (f : Callback).
Arguments Use {Callback} f.
Arguments Route {Callback} verb pattern f.

(** How the dispatch loop finishes. *)
Inductive Final :=
| Responded                          (* a layer ended the response *)
| FinalError (status : N)            (* the default error handler *)
| OptionsReply (allow : list string) (* the automatic OPTIONS reply *)
| NotFound.                          (* the default 404 *)

(** *** Route paths *)
Inductive Segment := Lit (s : string) | Param (name : string).

Definition compile_segment (s : string) : Segment :=
  match s with
  | String ":" n => Param n
  | _ => Lit s
  end.

(** A route pattern such as ['/api/items/:id'], cut at its slashes. *)
Definition compile (pattern : string) : list Segment :=
  map compile_segment (tl (JS.split "/" pattern)).

Fixpoint drop_last_empty (l : list string) : list string :=
  match l with
  | [] => []
  | [s] => if String.eqb s "" then [] else [s]
  | s :: l' => s :: drop_last_empty l'
  end.

(** The segments of a request path; routing is not strict, so one trailing
    slash is ignored. *)
Definition path_segments (p : string) : option (list string) :=
  match JS.split "/" p with
  | s :: segs => if String.eqb s "" then Some (drop_last_empty segs) else None
  | [] => None
  end.

Inductive MatchResult := NoMatch | DecodeFailed | Matched.

Section Matching.
(** Whether [decodeURIComponent] accepts a captured parameter. *)
Variable decodes : string -> bool.

(** Literal segments compare without regard to case; a parameter takes
    one non-empty segment, which must then decode. *)
Fixpoint match_segments (pat : list Segment) (segs : list string) : MatchResult :=
  match pat, segs with
  | [], [] => Matched
  | Lit l :: pat', s :: segs' =>
      if String.eqb (JS.toLowerCase l) (JS.toLowerCase s)
      then match_segments pat' segs' else NoMatch
  | Param _ :: pat', s :: segs' =>
      if String.eqb s "" then NoMatch
      else match match_segments pat' segs' with
           | NoMatch => NoMatch
           | r => if decodes s then r else DecodeFailed
           end
  | _, _ => NoMatch
  end.

Definition match_path (pattern : string) (p : string) : MatchResult :=
  match path_segments p with
  | Some segs => match_segments (compile pattern) segs
  | None => NoMatch
  end.
End Matching.

(** A route registered with [app.get] also answers HEAD. *)
Definition handles_method (verb : string) (m : string) : bool :=
  let name := JS.toLowerCase m in
  String.eqb verb (if String.eqb name "head" then "get" else name).

(** The methods a route offers to an OPTIONS request: its verb in upper
    case, and HEAD too for a route registered with [app.get]. *)
Definition route_options (verb : string) : list string :=
  (JS.toUpperCase verb :: if String.eqb verb "get" then ["HEAD"] else [])%list.

(** The methods are collected without repetition, in the order found. *)
Definition appendMethods (methods addition : list string) : list string :=
  fold_left (fun l m => if existsb (String.eqb m) l then l else (l ++ [m])%list)
            addition methods.

Section Router.
Context {Callback S : Type}.
Variable invoke : Callback -> Request -> S -> S * Completion.
Variable decodes : string -> bool.

(** The dispatch loop over the stack, in registration order. It returns
    the final state, the callbacks it invoked (in order) and how it
    finished. [options] collects the methods of the routes whose path
    matched an OPTIONS request. No layer of this application handles
    errors, so a pending error skips every remaining layer. *)
Fixpoint dispatch (stack : list (Layer Callback)) (req : Request)
         (options : list string) (s : S) : S * list Callback * Final :=
  match stack with
  | [] =>
      (s, [], if String.eqb (method req) "OPTIONS" && negb (Nat.eqb (length options) 0)
              then OptionsReply options else NotFound)
  | l :: rest =>
      let run f :=
        let '(s1, c) := invoke f req s in
        match c with
        | Next => let '(s2, t, fin) := dispatch rest req options s1 in (s2, f :: t, fin)
        | NextError st => (s1, [f], FinalError st)
        | Ended => (s1, [f], Responded)
        end in
      match l with
      | Use f => run f
      | Route verb pattern f =>
          match match_path decodes pattern (path req) with
          | NoMatch => dispatch rest req options s
          | DecodeFailed => (s, [], FinalError 400)
          | Matched =>
              if handles_method verb (method req) then run f
              else dispatch rest req
                     (if String.eqb (method req) "OPTIONS"
                      then appendMethods options (route_options verb) else options) s
          end
      end
  end.

Definition handle (stack : list (Layer Callback)) (req : Request) (s : S) :=
  dispatch stack req [] s.

(** The routes of a stack, in registration order. *)
Fixpoint routes (stack : list (Layer Callback)) : list (string * string * Callback) :=
  match stack with
  | [] => []
  | Use _ :: rest => routes rest
  | Route verb pattern f :: rest => (verb, pattern, f) :: routes rest
  end.
End Router.

Definition callback_of {Callback : Type} (l : Layer Callback) : Callback :=
  match l with
  | Use f => f
  | Route _ _ f => f
  end.

End Express.

(** ** index.js: the application *)
Module Server.
Import Express.

(** [httpRequestCounter], as created: no label value has a count yet. *)
Definition httpRequestCounter : PromClient.Counter :=
  PromClient.mkCounter "http_requests_api_total" "Đếm số lần gọi api" ["method"] [].

(** [register]: a new registry in which the counter is registered. The
    registry holds the counter object itself, so it always shows the
    counter's current table. *)
Definition register (counter : PromClient.Counter) : PromClient.Registry :=
  PromClient.registerMetric counter [].

(** The functions that index.js puts on the stack. *)
Inductive Callback :=
| metricsMiddleware   (* the arrow function of lines 21-28 *)
| metricsEndpoint     (* the async arrow function of lines 30-33 *)
| jsonParser          (* express.json() *)
| serveStatic         (* express.static(__dirname + '/static') *)
| getGreeting
| getItems
| addItem
| updateItem
| deleteItem.

(** The response object, as far as this file writes it. *)
Record Res := mkRes {
  headers : list (string * string);
  ended : option string
}.

Definition fresh_res : Res := mkRes [] None.

(** [res.set(k, v)] *)
Definition res_set (k v : string) (r : Res) : Res :=
  mkRes ((k, v) :: filter (fun kv => negb (String.eqb (fst kv) k)) (headers r)) (ended r).

(** [res.end(body)] *)
Definition res_end (body : string) (r : Res) : Res :=
  mkRes (headers r) (Some body).

Definition header (k : string) (r : Res) : option string :=
  match find (fun kv => String.eqb (fst kv) k) (headers r) with
  | Some kv => Some (snd kv)
  | None => None
  end.

(** What a request can change: the process-wide counter, and its own
    response. *)
Record ReqState := mkReqState {
  counter : PromClient.Counter;
  res : Res
}.

(** What the surroundings decide for one request.
    [static_answer p] is what the static middleware does with a GET or HEAD
    of the path [p]: [Some body] when it answers, with the body it sends for
    a GET (the file of that path, the index page of a directory, or the
    redirect page that sends a directory path to the same path with a
    slash), and [None] when it passes the request on.
    [decodes] tells which captured parameters decode.
    [logs_errors] tells whether the default error handler prints the error,
    which it does unless NODE_ENV is 'test'. *)
Record Env := mkEnv {
  static_answer : string -> option string;
  decodes : string -> bool;
  logs_errors : bool
}.

Definition is_api (p : string) : bool := JS.startsWith p "/api".

(** Modelled from the spec: the five route handler modules (getGreeting,
    getItems, addItem, updateItem, deleteItem under routes/) are not part of
    the source at hand. The specification describes each of them as an
    adapter from the request to one persistence call to a response, which
    answers with the result, or with a 5xx status when persistence fails. So
    a handler, once invoked, ends the response in either case and does not
    call next; it cannot reach the counter, which is private to index.js.
    What the handler writes into the response is left to those modules. *)
Definition routeHandler (h : Callback) (req : Request) (s : ReqState)
  : ReqState * Completion :=
  (s, Ended).

Definition invoke (env : Env) (f : Callback) (req : Request) (s : ReqState)
  : ReqState * Completion :=
  match f with
  | metricsMiddleware =>
      ((if is_api (path req)
        then mkReqState (PromClient.inc (method req) (counter s)) (res s)
        else s),
       Next)
  | metricsEndpoint =>
      let r1 := res_set "Content-Type" PromClient.contentType (res s) in
      let r2 := res_end (PromClient.metrics (register (counter s))) r1 in
      (mkReqState (counter s) r2, Ended)
  | jsonParser =>
      match body_error req with
      | Some st => (s, NextError st)
      | None => (s, Next)
      end
  | serveStatic =>
      if String.eqb (method req) "GET" || String.eqb (method req) "HEAD"
      then match static_answer env (path req) with
           | Some content =>
               (* a HEAD gets the headers only *)
               let body := if String.eqb (method req) "HEAD" then "" else content in
               (mkReqState (counter s) (res_end body (res s)), Ended)
           | None => (s, Next)
           end
      else (s, Next)
  | getGreeting | getItems | addItem | updateItem | deleteItem =>
      routeHandler f req s
  end.

(** The stack, in the order of the [app.use] and [app.VERB] calls. *)
Definition app : list (Layer Callback) :=
  [ Use metricsMiddleware;
    Route "get" "/metrics" metricsEndpoint;
    Use jsonParser;
    Use serveStatic;
    Route "get" "/api/greeting" getGreeting;
    Route "get" "/api/items" getItems;
    Route "post" "/api/items" addItem;
    Route "put" "/api/items/:id" updateItem;
    Route "delete" "/api/items/:id" deleteItem ].

(** One request through the application. *)
Definition handleRequest (env : Env) (req : Request) (c : PromClient.Counter)
  : ReqState * list Callback * Final :=
  handle (invoke env) (decodes env) app req (mkReqState c fresh_res).

Definition counter_after (env : Env) (req : Request) (c : PromClient.Counter) :=
  counter (fst (fst (handleRequest env req c))).
Definition res_after (env : Env) (req : Request) (c : PromClient.Counter) :=
  res (fst (fst (handleRequest env req c))).
Definition trace (env : Env) (req : Request) (c : PromClient.Counter) :=
  snd (fst (handleRequest env req c)).
Definition final (env : Env) (req : Request) (c : PromClient.Counter) :=
  snd (handleRequest env req c).

(** The count shown for a method. *)
Definition count (m : string) (c : PromClient.Counter) : N :=
  PromClient.get m (PromClient.values c).

(** *** Vocabulary for the properties below *)

(** The callbacks registered with [app.VERB]. *)
Definition is_route_handler (f : Callback) : bool :=
  match f with
  | metricsMiddleware | jsonParser | serveStatic => false
  | _ => true
  end.

(** The handlers required from the route modules. *)
Definition api_handlers : list Callback :=
  [getGreeting; getItems; addItem; updateItem; deleteItem].

(** The request is one for the route of '/metrics'. *)
Definition metrics_hit (env : Env) (req : Request) : bool :=
  match match_path (decodes env) "/metrics" (path req) with
  | Matched => handles_method "get" (method req)
  | _ => false
  end.

(** The static middleware answers the request. *)
Definition static_hit (env : Env) (req : Request) : bool :=
  (String.eqb (method req) "GET" || String.eqb (method req) "HEAD")
  && match static_answer env (path req) with Some _ => true | None => false end.

(** The four route paths of the application. *)
Definition patterns : list string :=
  ["/metrics"; "/api/greeting"; "/api/items"; "/api/items/:id"].

(** An empty static directory: the static middleware answers nothing. *)
Definition no_files : Env := mkEnv (fun _ => None) (fun _ => true) true.

(** A static directory that holds one page, index.html: the static
    middleware answers '/index.html' and, as the index of the directory,
    '/' with it. *)
Definition one_page : Env :=
  mkEnv (fun p => if String.eqb p "/index.html" || String.eqb p "/"
                  then Some "<html></html>" else None)
        (fun _ => true) true.

(** The control flow in the order the specification gives it: the metrics
    middleware, then the JSON body parser, then static files or a route. *)
Definition stated_order (t : list Callback) : Prop :=
  exists tail,
    t = metricsMiddleware :: jsonParser :: tail
    /\ Forall (fun f => f = serveStatic \/ is_route_handler f = true) tail.

(** The request is one that the metrics middleware counts under the label
    value [m]. *)
Definition counted (m : string) (req : Request) : bool :=
  is_api (path req) && String.eqb (method req) m.


End Server.

(** ** index.js: the process around the application *)
Module Process.
Import Express Server.

Inductive Signal := SIGINT | SIGTERM | SIGUSR2 | SIGHUP | SIGQUIT.

(** How a promise of the persistence module settles. *)
Inductive Settled := Fulfilled | Rejected (err : string).

(** What reaches the terminal: [console.log] and [console.error] as
    index.js calls them, the error that the default error handler of the
    application prints for a request that ends in an error, and the report
    of the runtime on an exception that nobody caught. *)
Inductive ConsoleLine :=
| Log (msg : string)
| Error (err : string)
| RequestError (status : N)
| Uncaught (err : string).

(** How the process ended: with an exit code, that of [process.exit] or the
    1 with which the runtime ends on an uncaught exception, or by the default
    action of a signal nobody listens to. *)
Inductive Exit := Code (c : Z) | KilledBy (s : Signal).

Record World := mkWorld {
  counter : PromClient.Counter;   (* httpRequestCounter *)
  init_calls : nat;               (* calls of db.init() so far *)
  init_pending : bool;            (* its promise has not settled yet *)
  teardown_calls : nat;           (* calls of db.teardown() so far *)
  teardown_pending : nat;         (* of which not settled yet *)
  listen_pending : option N;      (* app.listen(port) called, not bound yet *)
  listening : option N;           (* the port the listener is bound to *)
  console : list ConsoleLine;     (* oldest line first *)
  exitCode : option Z;            (* process.exitCode *)
  exited : option Exit
}.

(** A process that has just been started. *)
Definition fresh : World :=
  mkWorld httpRequestCounter 0 false 0 0 None None [] None None.

Definition set_counter (c : PromClient.Counter) (w : World) : World :=
  mkWorld c (init_calls w) (init_pending w) (teardown_calls w) (teardown_pending w)
          (listen_pending w) (listening w) (console w) (exitCode w) (exited w).

Definition set_init (calls : nat) (pending : bool) (w : World) : World :=
  mkWorld (counter w) calls pending (teardown_calls w) (teardown_pending w)
          (listen_pending w) (listening w) (console w) (exitCode w) (exited w).

Definition set_teardown (calls pending : nat) (w : World) : World :=
  mkWorld (counter w) (init_calls w) (init_pending w) calls pending
          (listen_pending w) (listening w) (console w) (exitCode w) (exited w).

Definition set_listen (pending bound : option N) (w : World) : World :=
  mkWorld (counter w) (init_calls w) (init_pending w) (teardown_calls w)
          (teardown_pending w) pending bound (console w) (exitCode w) (exited w).

Definition print (l : ConsoleLine) (w : World) : World :=
  mkWorld (counter w) (init_calls w) (init_pending w) (teardown_calls w)
          (teardown_pending w) (listen_pending w) (listening w)
          (console w ++ [l])%list (exitCode w) (exited w).

Definition set_exited (e : Exit) (w : World) : World :=
  mkWorld (counter w) (init_calls w) (init_pending w) (teardown_calls w)
          (teardown_pending w) (listen_pending w) (listening w) (console w)
          (exitCode w) (Some e).

Definition alive (w : World) : bool :=
  match exited w with None => true | Some _ => false end.

(** [process.exit(code)]; without an argument the code is
    [process.exitCode], and 0 when that was never set. *)
Definition process_exit (code : option Z) (w : World) : World :=
  set_exited
    (Code match code with
          | Some c => c
          | None => match exitCode w with Some c => c | None => 0%Z end
          end) w.

(** *** Promise chains *)

(** A callback of a promise runs on the world and either returns or
    throws. *)
Definition PromiseCallback := World -> World * Settled.

Inductive Reaction :=
| Then (f : PromiseCallback)               (* .then(f) *)
| Catch (g : string -> PromiseCallback).   (* .catch(g) *)

(** The reactions of a chain, run in order once the first promise has
    settled. A process that has exited runs nothing more. *)
Fixpoint settle (chain : list Reaction) (o : Settled) (w : World) : World :=
  match chain with
  | [] => w
  | r :: chain' =>
      if alive w then
        match r, o with
        | Then f, Fulfilled => let (w', o') := f w in settle chain' o' w'
        | Then _, Rejected e => settle chain' (Rejected e) w
        | Catch _, Fulfilled => settle chain' Fulfilled w
        | Catch g, Rejected e => let (w', o') := g e w in settle chain' o' w'
        end
      else w
  end.

(** *** Start (lines 45-52) *)

(** [app.listen(3000, ...)]: the bind is asked for; the callback runs when
    the socket is bound. *)
Definition app_listen (port : N) (w : World) : World :=
  set_listen (Some port) (listening w) w.

Definition init_chain : list Reaction :=
  [ Then (fun w => (app_listen 3000 w, Fulfilled));
    Catch (fun err w => (process_exit (Some 1%Z) (print (Error err) w), Fulfilled)) ].

(** [db.init()] is called; its promise is pending. *)
Definition db_init (w : World) : World :=
  set_init (S (init_calls w)) true w.

(** *** Shutdown (lines 54-62) *)

Definition teardown_chain : list Reaction :=
  [ Catch (fun _ w => (w, Fulfilled));
    Then (fun w => (process_exit None w, Fulfilled)) ].

(** [gracefulShutdown]: [db.teardown()] is called; its promise is
    pending, with [teardown_chain] attached. *)
Definition gracefulShutdown (w : World) : World :=
  set_teardown (S (teardown_calls w)) (S (teardown_pending w)) w.

(** The listeners registered with [process.on]. *)
Definition listener (s : Signal) : option (World -> World) :=
  match s with
  | SIGINT => Some gracefulShutdown
  | SIGTERM => Some gracefulShutdown
  | SIGUSR2 => Some gracefulShutdown
  | SIGHUP | SIGQUIT => None
  end.

(** The top level of index.js: everything above is set up, and
    [db.init()] is called once. *)
Definition main (w : World) : World := db_init w.

Definition boot : World := main fresh.

(** The default error handler of the application prints the error of a
    request that ends in one. *)
Definition log_error (env : Env) (fin : Final) (w : World) : World :=
  match fin with
  | FinalError status => if logs_errors env then print (RequestError status) w else w
  | _ => w
  end.

(** *** What happens to the process *)
Inductive Input :=
| InitSettles (o : Settled)       (* the promise of db.init() settles *)
| Bound                           (* the listening socket is bound *)
| BindFails (err : string)        (* the bind fails: an 'error' event nobody handles,
                                     so the runtime reports it and exits with 1 *)
| Incoming (env : Env) (req : Request)
| Kill (s : Signal)
| TeardownSettles (o : Settled).  (* a promise of db.teardown() settles *)

Definition step (i : Input) (w : World) : World :=
  if alive w then
    match i with
    | InitSettles o =>
        if init_pending w
        then settle init_chain o (set_init (init_calls w) false w)
        else w
    | Bound =>
        match listen_pending w with
        | Some port => print (Log "Listening on port 3000") (set_listen None (Some port) w)
        | None => w
        end
    | BindFails err =>
        match listen_pending w with
        | Some _ => set_exited (Code 1) (print (Uncaught err) (set_listen None (listening w) w))
        | None => w
        end
    | Incoming env req =>
        match listening w with
        | Some _ =>
            log_error env (final env req (counter w))
                      (set_counter (counter_after env req (counter w)) w)
        | None => w
        end
    | Kill s =>
        match listener s with
        | Some f => f w
        | None => set_exited (KilledBy s) w
        end
    | TeardownSettles o =>
        match teardown_pending w with
        | S n => settle teardown_chain o (set_teardown (teardown_calls w) n w)
        | O => w
        end
    end
  else w.

Fixpoint run (ins : list Input) (w : World) : World :=
  match ins with
  | [] => w
  | i :: ins' => run ins' (step i w)
  end.

(** The states of the lifecycle, read off the world. *)
Inductive Phase := STARTING | LISTENING (port : N) | STOPPED (e : Exit).

Definition phase (w : World) : Phase :=
  match exited w, listening w with
  | Some e, _ => STOPPED e
  | None, Some port => LISTENING port
  | None, None => STARTING
  end.

(** *** Vocabulary for the properties below *)

Definition is_init_settles (i : Input) : bool :=
  match i with InitSettles _ => true | _ => false end.

(** The signals index.js listens to. *)
Definition handled_signals : list Signal := [SIGINT; SIGTERM; SIGUSR2].

(** Requests arriving one after the other, each with its surroundings. *)
Definition incoming (l : list (Env * Request)) : list Input :=
  map (fun er => Incoming (fst er) (snd er)) l.

(** The input is not a request for a path that starts with '/api'. *)
Definition not_api_request (i : Input) : Prop :=
  match i with
  | Incoming _ req => is_api (path req) = false
  | _ => True
  end.

End Process.

(** * Properties *)

Import Express Server.

(** ** The counter table *)

Lemma get_inc_same m h :
  PromClient.get m (PromClient.inc_hashMap m h) = (PromClient.get m h + 1)%N.
Proof.
  induction h as [|[k v] h IH]; simpl.
  - now rewrite String.eqb_refl.
  - destruct (String.eqb k m) eqn:E; simpl; rewrite E; auto.
Qed.

Lemma get_inc_other m m' h :
  m' <> m -> PromClient.get m' (PromClient.inc_hashMap m h) = PromClient.get m' h.
Proof.
  intros Hne. induction h as [|[k v] h IH]; simpl.
  - destruct (String.eqb m m') eqn:E; auto. apply String.eqb_eq in E. congruence.
  - destruct (String.eqb k m) eqn:E; simpl.
    + apply String.eqb_eq in E. subst k.
      destruct (String.eqb m m') eqn:E'; auto. apply String.eqb_eq in E'. congruence.
    + destruct (String.eqb k m'); auto.
Qed.

Lemma count_inc_le m m' c : (count m c <= count m (PromClient.inc m' c))%N.
Proof.
  unfold count. simpl. destruct (string_dec m m') as [->|Hne].
  - rewrite get_inc_same. lia.
  - rewrite get_inc_other by exact Hne. lia.
Qed.

Lemma prefix_iff a : forall p, String.prefix a p = true <-> exists rest, p = a ++ rest.
Proof.
  induction a as [|x a IH]; intros p; simpl.
  - destruct p; split; eauto.
  - destruct p as [|y p].
    + split; [discriminate|]. intros [rest H]. discriminate H.
    + simpl. destruct (ascii_dec x y) as [->|Hne].
      * split.
        -- intros H. apply IH in H. destruct H as [rest ->]. exists rest. reflexivity.
        -- intros [rest H]. apply IH. exists rest. simpl in H. congruence.
      * split; [discriminate|]. intros [rest H]. congruence.
Qed.

(** ** The dispatch loop, for any stack *)
Section DispatchFacts.
Context {C S : Type}.
Variable invoke : C -> Request -> S -> S * Completion.
Variable decodes : string -> bool.

Lemma dispatch_use f rest req opts s :
  dispatch invoke decodes (Use f :: rest) req opts s =
  (let '(s1, c) := invoke f req s in
   match c with
   | Next =>
       let '(s2, t, fin) := dispatch invoke decodes rest req opts s1 in (s2, f :: t, fin)
   | NextError st => (s1, [f], FinalError st)
   | Ended => (s1, [f], Responded)
   end).
Proof. reflexivity. Qed.

Lemma dispatch_route verb pattern f rest req opts s :
  dispatch invoke decodes (Route verb pattern f :: rest) req opts s =
  match match_path decodes pattern (path req) with
  | NoMatch => dispatch invoke decodes rest req opts s
  | DecodeFailed => (s, [], FinalError 400)
  | Matched =>
      if handles_method verb (method req)
      then dispatch invoke decodes (Use f :: rest) req opts s
      else dispatch invoke decodes rest req
             (if String.eqb (method req) "OPTIONS"
              then appendMethods opts (route_options verb) else opts) s
  end.
Proof. reflexivity. Qed.

(** What every callback of the stack preserves, the dispatch preserves. *)
Lemma dispatch_preserves (P : S -> Prop) (stack : list (Layer C)) :
  (forall l req s, In l stack -> P s -> P (fst (invoke (callback_of l) req s))) ->
  forall req opts s, P s -> P (fst (fst (dispatch invoke decodes stack req opts s))).
Proof.
  induction stack as [|l rest IH]; intros Hinv req opts s Hs.
  - exact Hs.
  - assert (Hrest : forall l0 req0 s0,
               In l0 rest -> P s0 -> P (fst (invoke (callback_of l0) req0 s0)))
      by (intros; apply Hinv; simpl; auto).
    assert (Hrun : forall f, f = callback_of l ->
               P (fst (fst (dispatch invoke decodes (Use f :: rest) req opts s)))).
    { intros f ->. rewrite dispatch_use.
      specialize (Hinv l req s (or_introl eq_refl) Hs).
      destruct (invoke (callback_of l) req s) as [s1 c]. simpl in Hinv.
      destruct c; simpl; auto.
      specialize (IH Hrest req opts s1 Hinv).
      destruct (dispatch invoke decodes rest req opts s1) as [[s2 t] fin]. exact IH. }
    destruct l as [f|verb pattern f].
    + apply Hrun. reflexivity.
    + rewrite dispatch_route.
      destruct (match_path decodes pattern (path req)); auto.
      destruct (handles_method verb (method req)); auto.
Qed.

(** A callback is invoked only for a layer of the stack, and for a route
    only when the request matches its verb and its path. *)
Lemma dispatch_trace_route (stack : list (Layer C)) :
  forall req opts s f,
    In f (snd (fst (dispatch invoke decodes stack req opts s))) ->
    exists l, In l stack /\ callback_of l = f
              /\ match l with
                 | Use _ => True
                 | Route verb pattern _ =>
                     handles_method verb (method req) = true
                     /\ match_path decodes pattern (path req) = Matched
                 end.
Proof.
  induction stack as [|l rest IH]; intros req opts s f.
  - simpl. intros [].
  - assert (Hskip : forall opts',
               In f (snd (fst (dispatch invoke decodes rest req opts' s))) ->
               exists l0, In l0 (l :: rest) /\ callback_of l0 = f
                          /\ match l0 with
                             | Use _ => True
                             | Route verb pattern _ =>
                                 handles_method verb (method req) = true
                                 /\ match_path decodes pattern (path req) = Matched
                             end).
    { intros opts' Hin. destruct (IH _ _ _ _ Hin) as [l0 [? ?]].
      exists l0; simpl; auto. }
    assert (Hrun : forall g,
               In f (snd (fst (dispatch invoke decodes (Use g :: rest) req opts s))) ->
               f = g \/ exists l0, In l0 rest /\ callback_of l0 = f
                          /\ match l0 with
                             | Use _ => True
                             | Route verb pattern _ =>
                                 handles_method verb (method req) = true
                                 /\ match_path decodes pattern (path req) = Matched
                             end).
    { intros g. rewrite dispatch_use. destruct (invoke g req s) as [s1 c].
      destruct c.
      - specialize (IH req opts s1 f).
        destruct (dispatch invoke decodes rest req opts s1) as [[s2 t] fin]. simpl in *.
        intros [<-|Hin]; auto.
      - simpl. intros [<-|[]]; auto.
      - simpl. intros [<-|[]]; auto. }
    destruct l as [g|verb pattern g].
    + intros Hin. destruct (Hrun g Hin) as [->|[l0 [? ?]]].
      * exists (Use g). simpl; auto.
      * exists l0; simpl; auto.
    + rewrite dispatch_route.
      destruct (match_path decodes pattern (path req)) eqn:HM.
      * apply Hskip.
      * simpl; intros [].
      * destruct (handles_method verb (method req)) eqn:Hh.
        -- intros Hin. destruct (Hrun g Hin) as [->|[l0 [? ?]]].
           ++ exists (Route verb pattern g). simpl; auto.
           ++ exists l0; simpl; auto.
        -- apply Hskip.
Qed.

(** A stack whose callbacks all end the response invokes at most one. *)
Lemma dispatch_ending (stack : list (Layer C)) req :
  (forall l s, In l stack -> snd (invoke (callback_of l) req s) = Ended) ->
  forall opts s,
    snd (fst (dispatch invoke decodes stack req opts s)) = []
    \/ exists l, In l stack
                 /\ snd (fst (dispatch invoke decodes stack req opts s)) = [callback_of l].
Proof.
  induction stack as [|l rest IH]; intros Hend opts s.
  - left; reflexivity.
  - assert (Hrest : forall l0 s0, In l0 rest -> snd (invoke (callback_of l0) req s0) = Ended)
      by (intros; apply Hend; simpl; auto).
    assert (Hskip : forall opts',
               snd (fst (dispatch invoke decodes rest req opts' s)) = []
               \/ exists l0, In l0 (l :: rest)
                    /\ snd (fst (dispatch invoke decodes rest req opts' s)) = [callback_of l0]).
    { intros opts'. destruct (IH Hrest opts' s) as [H|[l0 [? ?]]]; auto.
      right. exists l0; simpl; auto. }
    assert (Hrun : forall g, g = callback_of l ->
               snd (fst (dispatch invoke decodes (Use g :: rest) req opts s)) = [g]).
    { intros g ->. rewrite dispatch_use.
      specialize (Hend l s (or_introl eq_refl)).
      destruct (invoke (callback_of l) req s) as [s1 c]. simpl in Hend. subst c.
      reflexivity. }
    destruct l as [g|verb pattern g].
    + right. exists (Use g). split; [simpl; auto|]. apply Hrun. reflexivity.
    + rewrite dispatch_route.
      destruct (match_path decodes pattern (path req)).
      * apply Hskip.
      * left; reflexivity.
      * destruct (handles_method verb (method req)).
        -- right. exists (Route verb pattern g). split; [simpl; auto|].
           apply Hrun. reflexivity.
        -- apply Hskip.
Qed.
End DispatchFacts.

(** ** The route paths of the application *)

Lemma compile_metrics : compile "/metrics" = [Lit "metrics"].
Proof. reflexivity. Qed.
Lemma compile_greeting : compile "/api/greeting" = [Lit "api"; Lit "greeting"].
Proof. reflexivity. Qed.
Lemma compile_items : compile "/api/items" = [Lit "api"; Lit "items"].
Proof. reflexivity. Qed.
Lemma compile_item : compile "/api/items/:id" = [Lit "api"; Lit "items"; Param "id"].
Proof. reflexivity. Qed.

Ltac split_segments p :=
  unfold match_path in *;
  rewrite ?compile_metrics, ?compile_greeting, ?compile_items, ?compile_item in *;
  destruct (path_segments p) as [[|?a [|?b [|?c [|?d ?segs]]]]|];
  cbn [match_segments] in *.

Ltac case_eqbs :=
  repeat match goal with
         | H : context [if String.eqb ?x ?y then _ else _] |- _ =>
             destruct (String.eqb x y) eqn:?; try discriminate H
         | |- context [if String.eqb ?x ?y then _ else _] =>
             destruct (String.eqb x y) eqn:?
         | H : context [if ?d ?s then _ else _] |- _ =>
             destruct (d s) eqn:?; try discriminate H
         | |- context [if ?d ?s then _ else _] =>
             destruct (d s) eqn:?
         end.

Ltac clash :=
  repeat match goal with
         | H : String.eqb _ _ = true |- _ => apply String.eqb_eq in H
         end;
  match goal with
  | H1 : JS.toLowerCase ?x = ?s, H2 : JS.toLowerCase ?y = ?s |- _ =>
      rewrite <- H2 in H1; vm_compute in H1; discriminate H1
  end.

(** No request path matches two of the four route paths. *)
Lemma matched_patterns_exclusive d p P Q :
  In P patterns -> In Q patterns -> P <> Q ->
  match_path d P p = Matched -> match_path d Q p = NoMatch.
Proof.
  intros HP HQ Hne HM.
  simpl in HP, HQ.
  destruct HP as [<-|[<-|[<-|[<-|[]]]]]; destruct HQ as [<-|[<-|[<-|[<-|[]]]]];
    try congruence; clear Hne;
    split_segments p; try discriminate HM; try reflexivity;
    case_eqbs; try reflexivity; try discriminate; try clash.
Qed.

Lemma literal_patterns_decode d p P :
  In P ["/metrics"; "/api/greeting"; "/api/items"] -> match_path d P p <> DecodeFailed.
Proof.
  intros HP. simpl in HP.
  destruct HP as [<-|[<-|[<-|[]]]]; split_segments p; case_eqbs; discriminate.
Qed.

Lemma handles_method_verb v v' m :
  handles_method v m = true -> handles_method v' m = true -> v = v'.
Proof.
  unfold handles_method. intros H H'.
  apply String.eqb_eq in H, H'. congruence.
Qed.

Lemma handles_other v v' m :
  handles_method v m = true -> v <> v' -> handles_method v' m = false.
Proof.
  intros H Hne. destruct (handles_method v' m) eqn:H'; [|reflexivity].
  exfalso. apply Hne. eapply handles_method_verb; eassumption.
Qed.

(** A path that matches the route of '/metrics' does not start with '/api'. *)
Lemma metrics_path_not_api d p :
  match_path d "/metrics" p = Matched -> is_api p = false.
Proof.
  intros HM. destruct (is_api p) eqn:Hapi; [|reflexivity].
  apply prefix_iff in Hapi. destruct Hapi as [rest ->].
  unfold match_path, path_segments in HM. rewrite compile_metrics in HM.
  change (JS.split "/" ("/api" ++ rest))
    with ("" :: match match match JS.split "/" rest with
                            | [] => ["i"]
                            | w :: ws => String "i" w :: ws
                            end with
                      | [] => ["p"]
                      | w :: ws => String "p" w :: ws
                      end with
                | [] => ["a"]
                | w :: ws => String "a" w :: ws
                end) in HM.
  destruct (JS.split "/" rest) as [|w [|w' ws]]; vm_compute in HM; discriminate HM.
Qed.

(** ** One request through the application *)

(** The state after the metrics middleware. *)
Lemma handleRequest_unfold env req c :
  handleRequest env req c =
  let '(s, routed, fin) :=
    dispatch (invoke env) (decodes env) (tl app) req []
             (mkReqState (if is_api (path req) then PromClient.inc (method req) c else c)
                         fresh_res)
  in (s, metricsMiddleware :: routed, fin).
Proof.
  unfold handleRequest, handle, app. rewrite dispatch_use. cbn [invoke tl].
  destruct (is_api (path req)); reflexivity.
Qed.

Lemma invoke_keeps_counter env l req s :
  In l (tl app) -> Server.counter (fst (invoke env (callback_of l) req s)) = Server.counter s.
Proof.
  simpl. intros H.
  repeat (destruct H as [<-|H]; [simpl; try reflexivity|]); try contradiction.
  - destruct (body_error req); reflexivity.
  - destruct (_ || _); [destruct (static_answer env (path req))|]; reflexivity.
Qed.

Lemma counter_after_eq env req c :
  counter_after env req c = if is_api (path req) then PromClient.inc (method req) c else c.
Proof.
  unfold counter_after. rewrite handleRequest_unfold.
  set (c1 := if is_api (path req) then _ else _).
  pose proof (dispatch_preserves (invoke env) (decodes env)
                (fun s => Server.counter s = c1) (tl app)) as H.
  specialize (H (fun l req0 s Hin Hs => eq_trans (invoke_keeps_counter env l req0 s Hin) Hs)).
  specialize (H req [] (mkReqState c1 fresh_res) eq_refl).
  destruct (dispatch _ _ _ _ _ _) as [[s2 t] fin]. exact H.
Qed.

Lemma trace_head env req c :
  exists routed, trace env req c = metricsMiddleware :: routed /\ ~ In metricsMiddleware routed.
Proof.
  unfold trace. rewrite handleRequest_unfold.
  set (s1 := mkReqState _ _).
  pose proof (dispatch_trace_route (invoke env) (decodes env) (tl app) req [] s1
                metricsMiddleware) as H.
  destruct (dispatch _ _ _ _ _ _) as [[s2 t] fin]. simpl in *.
  exists t; split; auto. intros Hin. destruct (H Hin) as [l [Hl [Hc _]]].
  repeat (destruct Hl as [<-|Hl]; [discriminate Hc|]). contradiction.
Qed.

Lemma count_after_le env req c m : (count m c <= count m (counter_after env req c))%N.
Proof.
  rewrite counter_after_eq. destruct (is_api (path req)).
  - apply count_inc_le.
  - lia.
Qed.

(** A route handler runs only for a request that matches its route. *)
Lemma route_handler_needs_match env req c h :
  In h (trace env req c) -> is_route_handler h = true ->
  exists verb pattern,
    In (verb, pattern, h) (routes app)
    /\ handles_method verb (method req) = true
    /\ match_path (decodes env) pattern (path req) = Matched.
Proof.
  unfold trace, handleRequest, handle. intros Hin Hr.
  destruct (dispatch_trace_route _ _ _ _ _ _ _ Hin) as [l [Hl [Hc Hm]]].
  simpl in Hl.
  repeat (destruct Hl as [<-|Hl];
          [simpl in Hc; subst h; simpl in Hr;
           first [ discriminate Hr
                 | destruct Hm as [Hh HM]; do 2 eexists;
                   split; [|split; eassumption]; simpl; tauto ]|]).
  contradiction.
Qed.

(** The five API routes, once the dispatch has reached them. *)
Lemma api_routes_dispatch env req opts s verb pattern h :
  In (verb, pattern, h) (routes (skipn 4 app)) ->
  handles_method verb (method req) = true ->
  match_path (decodes env) pattern (path req) = Matched ->
  dispatch (invoke env) (decodes env) (skipn 4 app) req opts s = (s, [h], Responded).
Proof.
  intros Hin Hh HM. cbn [skipn app routes] in *.
  assert (HP : In pattern patterns).
  { simpl in Hin. simpl.
    repeat (destruct Hin as [E|Hin]; [inversion E; tauto|]). contradiction. }
  assert (Hx : forall Q, In Q patterns -> pattern <> Q ->
                         match_path (decodes env) Q (path req) = NoMatch)
    by (intros Q HQ Hne; exact (matched_patterns_exclusive _ _ pattern Q HP HQ Hne HM)).
  assert (Hv : forall v, verb <> v -> handles_method v (method req) = false)
    by (intros v Hne; exact (handles_other verb v _ Hh Hne)).
  simpl in Hin.
  destruct Hin as [E|[E|[E|[E|[E|[]]]]]]; inversion E; subst verb pattern h; clear E;
    repeat (rewrite dispatch_route;
            first [ rewrite HM, Hh; rewrite dispatch_use; reflexivity
                  | rewrite HM, Hv by discriminate
                  | rewrite Hx by (simpl; tauto || discriminate) ]).
Qed.

(** The stack below the route of '/metrics': body parser, static files,
    API routes. *)
Lemma below_metrics_route env req opts s :
  dispatch (invoke env) (decodes env) (skipn 2 app) req opts s =
  match body_error req with
  | Some st => (s, [jsonParser], FinalError st)
  | None =>
      if static_hit env req
      then (mkReqState (Server.counter s)
                       (res_end match static_answer env (path req) with
                                | Some content =>
                                    if String.eqb (method req) "HEAD" then "" else content
                                | None => ""
                                end (res s)),
            [jsonParser; serveStatic], Responded)
      else let '(s2, t, fin) :=
             dispatch (invoke env) (decodes env) (skipn 4 app) req opts s in
           (s2, jsonParser :: serveStatic :: t, fin)
  end.
Proof.
  unfold static_hit. cbn [skipn app].
  rewrite dispatch_use. cbn [invoke].
  destruct (body_error req); [reflexivity|].
  rewrite dispatch_use. cbn [invoke].
  destruct (String.eqb (method req) "GET" || String.eqb (method req) "HEAD");
    cbn [andb]; destruct (static_answer env (path req)); try reflexivity.
  all: destruct (dispatch _ _ _ _ _ _) as [[s2 t] fin]; reflexivity.
Qed.

(** The whole stack, by the kind of request. A request for the path of
    '/metrics' with another method goes on down the stack like any other;
    only an OPTIONS request remembers the verb of the route. *)
Lemma handleRequest_cases env req c :
  handleRequest env req c =
  let s1 := mkReqState (if is_api (path req) then PromClient.inc (method req) c else c)
                       fresh_res in
  if metrics_hit env req
  then (mkReqState (Server.counter s1)
          (res_end (PromClient.metrics (register (Server.counter s1)))
                   (res_set "Content-Type" PromClient.contentType fresh_res)),
        [metricsMiddleware; metricsEndpoint], Responded)
  else let '(s2, t, fin) :=
         dispatch (invoke env) (decodes env) (skipn 2 app) req
                  match match_path (decodes env) "/metrics" (path req) with
                  | Matched =>
                      if String.eqb (method req) "OPTIONS" then ["GET"; "HEAD"] else []
                  | _ => []
                  end s1 in
       (s2, metricsMiddleware :: t, fin).
Proof.
  rewrite handleRequest_unfold. unfold metrics_hit.
  change (tl app) with (Route "get" "/metrics" metricsEndpoint :: skipn 2 app).
  rewrite dispatch_route.
  destruct (match_path (decodes env) "/metrics" (path req)) eqn:HM.
  - reflexivity.
  - exfalso. revert HM. apply literal_patterns_decode. simpl; auto.
  - destruct (handles_method "get" (method req)); [|reflexivity].
    rewrite dispatch_use. reflexivity.
Qed.

(** A few requests, run through the stack. *)
Example get_items_is_counted_and_routed :
  handleRequest no_files (mkRequest "GET" "/api/items" None) httpRequestCounter
  = (mkReqState (PromClient.inc "GET" httpRequestCounter) fresh_res,
     [metricsMiddleware; jsonParser; serveStatic; getItems], Responded).
Proof. reflexivity. Qed.

Example head_items_goes_to_the_get_route :
  trace no_files (mkRequest "HEAD" "/API/Items/" None) httpRequestCounter
  = [metricsMiddleware; jsonParser; serveStatic; getItems]
  /\ counter_after no_files (mkRequest "HEAD" "/API/Items/" None) httpRequestCounter
     = httpRequestCounter.
Proof. split; reflexivity. Qed.

Example malformed_post_is_counted_and_refused :
  handleRequest no_files (mkRequest "POST" "/api/items" (Some 400%N)) httpRequestCounter
  = (mkReqState (PromClient.inc "POST" httpRequestCounter) fresh_res,
     [metricsMiddleware; jsonParser], FinalError 400).
Proof. reflexivity. Qed.

Example options_items_lists_the_verbs :
  final no_files (mkRequest "OPTIONS" "/api/items" None) httpRequestCounter
  = OptionsReply ["GET"; "HEAD"; "POST"].
Proof. reflexivity. Qed.

Example undecodable_id_is_refused :
  handleRequest (mkEnv (fun _ => None) (fun _ => false) true)
                (mkRequest "DELETE" "/api/items/%zz" None) httpRequestCounter
  = (mkReqState (PromClient.inc "DELETE" httpRequestCounter) fresh_res,
     [metricsMiddleware; jsonParser; serveStatic], FinalError 400).
Proof. reflexivity. Qed.

Example head_of_a_page_gets_no_body :
  handleRequest one_page (mkRequest "HEAD" "/" None) httpRequestCounter
  = (mkReqState httpRequestCounter (res_end "" fresh_res),
     [metricsMiddleware; jsonParser; serveStatic], Responded).
Proof. reflexivity. Qed.

Example options_metrics_offers_get_and_head :
  final no_files (mkRequest "OPTIONS" "/metrics" None) httpRequestCounter
  = OptionsReply ["GET"; "HEAD"].
Proof. reflexivity. Qed.

Example page_is_served_and_not_counted :
  handleRequest one_page (mkRequest "GET" "/index.html" None) httpRequestCounter
  = (mkReqState httpRequestCounter (res_end "<html></html>" fresh_res),
     [metricsMiddleware; jsonParser; serveStatic], Responded).
Proof. reflexivity. Qed.

(** C1. A request whose path starts with '/api' adds exactly 1 to the count
    of its method and leaves every other count alone; this happens in the
    first callback of the stack, so the rest of the stack (the routing) runs
    on the counter already incremented, and it holds for every request body,
    static directory and way the dispatch finishes. A request whose path
    does not start with '/api' leaves the counter as it was. *)
Theorem api_request_increments_method_counter_once :
  forall env req c,
    (JS.startsWith (path req) "/api" = true ->
       count (method req) (counter_after env req c) = (count (method req) c + 1)%N
       /\ (forall m, m <> method req -> count m (counter_after env req c) = count m c)
       /\ handleRequest env req c =
            (let '(s, routed, fin) :=
               dispatch (invoke env) (decodes env) (tl app) req []
                        (mkReqState (PromClient.inc (method req) c) fresh_res)
             in (s, metricsMiddleware :: routed, fin))
       /\ exists routed, trace env req c = metricsMiddleware :: routed
                         /\ ~ In metricsMiddleware routed)
    /\ (JS.startsWith (path req) "/api" = false -> counter_after env req c = c).
Proof.
  intros env req c. fold (is_api (path req)). split; intros Hapi.
  - rewrite counter_after_eq, handleRequest_unfold, Hapi. unfold count. simpl PromClient.values.
    split; [apply get_inc_same|].
    split; [intros m Hm; apply get_inc_other; exact Hm|].
    split; [reflexivity|apply trace_head].
  - rewrite counter_after_eq, Hapi. reflexivity.
Qed.

Lemma api_request_increments_method_counter_once_witness :
  count "GET" (counter_after no_files (mkRequest "GET" "/api/items" None) httpRequestCounter) = 1%N
  /\ counter_after no_files (mkRequest "GET" "/index.html" None) httpRequestCounter
     = httpRequestCounter.
Proof.
  split.
  - exact (proj1 (proj1 (api_request_increments_method_counter_once
                           no_files (mkRequest "GET" "/api/items" None) httpRequestCounter)
                        eq_refl)).
  - exact (proj2 (api_request_increments_method_counter_once
                    no_files (mkRequest "GET" "/index.html" None) httpRequestCounter)
                 eq_refl).
Defined.

(** The API routes, when the path matches none of them. *)
Lemma api_routes_no_match env req opts s :
  (forall P, In P ["/api/greeting"; "/api/items"; "/api/items/:id"] ->
             match_path (decodes env) P (path req) = NoMatch) ->
  dispatch (invoke env) (decodes env) (skipn 4 app) req opts s
  = (s, [], if String.eqb (method req) "OPTIONS" && negb (Nat.eqb (length opts) 0)
            then OptionsReply opts else NotFound).
Proof.
  intros H. cbn [skipn app].
  repeat (rewrite dispatch_route, H by (simpl; tauto)).
  reflexivity.
Qed.

Ltac unfold_request :=
  unfold trace, final, res_after, counter_after.

(** C9. The test of the middleware is a plain prefix test on the path: it
    holds exactly for the paths that are '/api' followed by anything, and
    every request with such a path is counted. So a request for '/apifoo'
    (any method) and a PATCH of '/api/items' are counted although no route
    handler runs for them, and with nothing in the static directory they end
    in the default 404. *)
Theorem api_test_is_a_plain_prefix_test :
  (forall p, is_api p = true <-> exists rest, p = "/api" ++ rest)
  /\ (forall env req c rest,
        path req = "/api" ++ rest ->
        count (method req) (counter_after env req c) = (count (method req) c + 1)%N)
  /\ (forall env m b c,
        let req := mkRequest m "/apifoo" b in
        count m (counter_after env req c) = (count m c + 1)%N
        /\ (forall h, In h (trace env req c) -> is_route_handler h = false)
        /\ final no_files (mkRequest m "/apifoo" None) c = NotFound)
  /\ (forall env b c,
        let req := mkRequest "PATCH" "/api/items" b in
        count "PATCH" (counter_after env req c) = (count "PATCH" c + 1)%N
        /\ (forall h, In h (trace env req c) -> is_route_handler h = false)
        /\ final no_files (mkRequest "PATCH" "/api/items" None) c = NotFound).
Proof.
  split; [intros p; apply prefix_iff|].
  split.
  { intros env req c rest Hp. rewrite counter_after_eq.
    assert (is_api (path req) = true) as -> by (apply prefix_iff; eauto).
    apply get_inc_same. }
  split.
  - intros env m b c req. split; [|split].
    + rewrite counter_after_eq. apply get_inc_same.
    + intros h Hin. destruct (is_route_handler h) eqn:Hr; [exfalso|reflexivity].
      destruct (route_handler_needs_match _ _ _ _ Hin Hr) as [v [p [Hroute [_ HM]]]].
      simpl in Hroute.
      repeat (destruct Hroute as [E|Hroute];
              [inversion E; subst; vm_compute in HM; discriminate HM|]).
      contradiction.
    + assert (Hhit : metrics_hit no_files (mkRequest m "/apifoo" None) = false)
        by reflexivity.
      assert (Hst : static_hit no_files (mkRequest m "/apifoo" None) = false)
        by (unfold static_hit; apply andb_false_r).
      unfold final. rewrite handleRequest_cases, Hhit. cbv zeta.
      rewrite below_metrics_route, Hst. cbn [body_error].
      rewrite api_routes_no_match.
      * cbn [snd]. change (match_path (decodes no_files) "/metrics" "/apifoo") with NoMatch.
        cbn [length Nat.eqb negb]. rewrite andb_false_r. reflexivity.
      * intros P HP. simpl in HP. destruct HP as [<-|[<-|[<-|[]]]]; reflexivity.
  - intros env b c req. split; [|split].
    + rewrite counter_after_eq. apply get_inc_same.
    + intros h Hin. destruct (is_route_handler h) eqn:Hr; [exfalso|reflexivity].
      destruct (route_handler_needs_match _ _ _ _ Hin Hr) as [v [p [Hroute [Hh HM]]]].
      simpl in Hroute.
      repeat (destruct Hroute as [E|Hroute];
              [inversion E; subst;
               first [ vm_compute in HM; discriminate HM
                     | vm_compute in Hh; discriminate Hh ]|]).
      contradiction.
    + vm_compute. reflexivity.
Qed.

Lemma api_test_is_a_plain_prefix_test_witness :
  count "GET" (counter_after no_files (mkRequest "GET" "/apifoo" None) httpRequestCounter) = 1%N.
Proof.
  exact (proj1 (proj2 api_test_is_a_plain_prefix_test)
               no_files (mkRequest "GET" "/apifoo" None) httpRequestCounter "foo" eq_refl).
Defined.

(** C5. A GET request whose path matches the route '/metrics' is answered
    by the inline handler: the Content-Type header is the registry's content
    type, and the body is the text that the registry (which holds exactly the
    request counter) renders from the counter as it stands when the handler
    runs; a request for this path is not itself counted, so that is also the
    counter as it stood when the request arrived. Neither the request body
    nor the static directory has any influence. *)
Theorem metrics_endpoint_serves_registry_text :
  forall env req c,
    method req = "GET" ->
    match_path (decodes env) "/metrics" (path req) = Matched ->
    header "Content-Type" (res_after env req c) = Some PromClient.contentType
    /\ ended (res_after env req c)
       = Some (PromClient.metrics (register (counter_after env req c)))
    /\ register (counter_after env req c) = [counter_after env req c]
    /\ counter_after env req c = c
    /\ trace env req c = [metricsMiddleware; metricsEndpoint]
    /\ final env req c = Responded.
Proof.
  intros env req c Hm HM.
  pose proof (metrics_path_not_api _ _ HM) as Hapi.
  assert (Hhit : metrics_hit env req = true)
    by (unfold metrics_hit; rewrite HM, Hm; reflexivity).
  unfold_request. rewrite handleRequest_cases, Hhit, Hapi. cbv zeta.
  repeat split; reflexivity.
Qed.

Lemma metrics_endpoint_serves_registry_text_witness :
  ended (res_after no_files (mkRequest "GET" "/metrics" None)
                   (PromClient.inc "GET" httpRequestCounter))
  = Some (PromClient.metrics (register (PromClient.inc "GET" httpRequestCounter))).
Proof.
  exact (proj1 (proj2 (metrics_endpoint_serves_registry_text
                         no_files (mkRequest "GET" "/metrics" None)
                         (PromClient.inc "GET" httpRequestCounter) eq_refl eq_refl))).
Defined.

Lemma api_handlers_end env req l s :
  In l (skipn 4 app) -> snd (invoke env (callback_of l) req s) = Ended.
Proof.
  simpl. intros H.
  repeat (destruct H as [<-|H]; [reflexivity|]). contradiction.
Qed.

(** Below static file serving, at most one API route handler runs. *)
Lemma api_routes_trace env req opts s :
  let t := snd (fst (dispatch (invoke env) (decodes env) (skipn 4 app) req opts s)) in
  t = [] \/ exists h, In h api_handlers /\ t = [h].
Proof.
  cbv zeta.
  destruct (dispatch_ending (invoke env) (decodes env) (skipn 4 app) req
              (fun l s0 Hl => api_handlers_end env req l s0 Hl) opts s)
    as [H|[l [Hl H]]]; [left; exact H|right].
  exists (callback_of l). split; [|exact H].
  simpl in Hl. repeat (destruct Hl as [<-|Hl]; [simpl; tauto|]). contradiction.
Qed.

(** C7, the claim as stated, fails: a GET of '/metrics' goes from the
    metrics middleware straight to its route handler; the JSON body parser
    never runs for it. *)
Lemma metrics_route_runs_before_body_parser :
  trace no_files (mkRequest "GET" "/metrics" None) httpRequestCounter
  = [metricsMiddleware; metricsEndpoint]
  /\ ~ stated_order (trace no_files (mkRequest "GET" "/metrics" None) httpRequestCounter).
Proof.
  split; [reflexivity|].
  intros [tail [H _]]. vm_compute in H. discriminate H.
Qed.

(** C7, amended. Every request passes the metrics middleware first, and no
    other callback runs before it. A GET or HEAD request whose path matches
    '/metrics' is then answered by the route handler of '/metrics', and
    nothing else runs. Every other request passes the JSON body parser next;
    if the parser rejects the body nothing else runs; otherwise static file
    serving runs next, and only if it does not answer the request is at
    most one of the five API route handlers invoked. *)
Theorem request_pipeline_order :
  forall env req c,
    exists rest,
      trace env req c = metricsMiddleware :: rest
      /\ ~ In metricsMiddleware rest
      /\ if metrics_hit env req
         then rest = [metricsEndpoint]
         else exists tail,
             rest = jsonParser :: tail
             /\ match body_error req with
                | Some _ => tail = []
                | None =>
                    exists routed,
                      tail = serveStatic :: routed
                      /\ if static_hit env req
                         then routed = []
                         else routed = [] \/ exists h, In h api_handlers /\ routed = [h]
                end.
Proof.
  intros env req c.
  destruct (trace_head env req c) as [rest [Ht Hnot]].
  exists rest. split; [exact Ht|]. split; [exact Hnot|].
  revert Ht. unfold trace. rewrite handleRequest_cases. cbv zeta.
  destruct (metrics_hit env req).
  - simpl. intros E. inversion E. reflexivity.
  - rewrite below_metrics_route.
    destruct (body_error req).
    + simpl. intros E. inversion E. eexists; split; reflexivity.
    + destruct (static_hit env req).
      * simpl. intros E. inversion E.
        eexists; split; [reflexivity|]. eexists; split; reflexivity.
      * match goal with
        | |- context [dispatch ?i ?d (skipn 4 app) ?r ?o ?s] =>
            pose proof (api_routes_trace env r o s) as Hapi;
            destruct (dispatch i d (skipn 4 app) r o s) as [[s2 t] fin]
        end.
        simpl in *. intros E. inversion E.
        eexists; split; [reflexivity|]. eexists; split; [reflexivity|]. exact Hapi.
Qed.

(** C6. The registered routes are exactly GET /metrics, GET /api/greeting,
    GET /api/items, POST /api/items, PUT /api/items/:id and
    DELETE /api/items/:id, each with its own handler. Each dispatches to its
    handler: a request for the route of '/metrics' always goes to the metrics
    handler; a request for one of the five API routes, accepted by the body
    parser and not answered by the static middleware, goes to the handler of
    that route; and a route handler never runs for a request that does not
    match its route. Apart from these endpoints the static middleware serves
    any path outside '/api': a GET or HEAD of such a path that the static
    directory answers is answered from there (the body for a GET, the
    headers alone for a HEAD), and is not counted. *)
Theorem http_surface :
  routes app = [ ("get", "/metrics", metricsEndpoint);
                 ("get", "/api/greeting", getGreeting);
                 ("get", "/api/items", getItems);
                 ("post", "/api/items", addItem);
                 ("put", "/api/items/:id", updateItem);
                 ("delete", "/api/items/:id", deleteItem) ]
  /\ (forall env req c,
        metrics_hit env req = true ->
        trace env req c = [metricsMiddleware; metricsEndpoint]
        /\ final env req c = Responded)
  /\ (forall env req c verb pattern h,
        In (verb, pattern, h) (routes app) -> In h api_handlers ->
        handles_method verb (method req) = true ->
        match_path (decodes env) pattern (path req) = Matched ->
        body_error req = None -> static_hit env req = false ->
        trace env req c = [metricsMiddleware; jsonParser; serveStatic; h]
        /\ final env req c = Responded)
  /\ (forall env req c h,
        In h (trace env req c) -> is_route_handler h = true ->
        exists verb pattern,
          In (verb, pattern, h) (routes app)
          /\ handles_method verb (method req) = true
          /\ match_path (decodes env) pattern (path req) = Matched)
  /\ (forall env req c content,
        is_api (path req) = false -> metrics_hit env req = false ->
        body_error req = None ->
        method req = "GET" \/ method req = "HEAD" ->
        static_answer env (path req) = Some content ->
        trace env req c = [metricsMiddleware; jsonParser; serveStatic]
        /\ ended (res_after env req c)
           = Some (if String.eqb (method req) "HEAD" then "" else content)
        /\ final env req c = Responded
        /\ counter_after env req c = c).
Proof.
  split; [reflexivity|]. split; [|split; [|split]].
  - intros env req c Hhit. unfold_request.
    rewrite handleRequest_cases, Hhit. split; reflexivity.
  - intros env req c verb pattern h Hin Hapi Hh HM Hb Hst.
    assert (Hin' : In (verb, pattern, h) (routes (skipn 4 app))).
    { simpl in Hin. destruct Hin as [E|Hin]; [|exact Hin].
      inversion E; subst. simpl in Hapi. intuition discriminate. }
    assert (HP : In pattern patterns /\ pattern <> "/metrics").
    { simpl in Hin'. simpl.
      repeat (destruct Hin' as [E|Hin']; [inversion E; split; [tauto|discriminate]|]).
      contradiction. }
    assert (Hmet : match_path (decodes env) "/metrics" (path req) = NoMatch)
      by (apply (matched_patterns_exclusive _ _ pattern "/metrics");
          [tauto|simpl; tauto|tauto|exact HM]).
    assert (Hhit : metrics_hit env req = false) by (unfold metrics_hit; now rewrite Hmet).
    unfold_request. rewrite handleRequest_cases, Hhit. cbv zeta.
    rewrite below_metrics_route, Hb, Hst.
    rewrite (api_routes_dispatch env req _ _ verb pattern h Hin' Hh HM).
    split; reflexivity.
  - intros env req c h. apply route_handler_needs_match.
  - intros env req c content Hna Hhit Hb Hm Hs. unfold_request.
    assert (Hst : static_hit env req = true).
    { unfold static_hit. rewrite Hs. destruct Hm as [-> | ->]; reflexivity. }
    rewrite handleRequest_cases, Hhit, Hna. cbv zeta.
    rewrite below_metrics_route, Hb, Hst, Hs. repeat split; reflexivity.
Qed.

Lemma http_surface_witness :
  (trace no_files (mkRequest "GET" "/metrics" None) httpRequestCounter
   = [metricsMiddleware; metricsEndpoint]
   /\ final no_files (mkRequest "GET" "/metrics" None) httpRequestCounter = Responded)
  /\ (trace no_files (mkRequest "PUT" "/api/items/7" None) httpRequestCounter
      = [metricsMiddleware; jsonParser; serveStatic; updateItem]
      /\ final no_files (mkRequest "PUT" "/api/items/7" None) httpRequestCounter = Responded)
  /\ (exists verb pattern,
        In (verb, pattern, addItem) (routes app)
        /\ handles_method verb "POST" = true
        /\ match_path (decodes no_files) pattern "/api/items" = Matched)
  /\ (trace one_page (mkRequest "GET" "/" None) httpRequestCounter
      = [metricsMiddleware; jsonParser; serveStatic]
      /\ ended (res_after one_page (mkRequest "GET" "/" None) httpRequestCounter)
         = Some "<html></html>"
      /\ final one_page (mkRequest "GET" "/" None) httpRequestCounter = Responded
      /\ counter_after one_page (mkRequest "GET" "/" None) httpRequestCounter
         = httpRequestCounter).
Proof.
  split; [|split; [|split]].
  - exact (proj1 (proj2 http_surface)
                 no_files (mkRequest "GET" "/metrics" None) httpRequestCounter eq_refl).
  - exact (proj1 (proj2 (proj2 http_surface))
                 no_files (mkRequest "PUT" "/api/items/7" None) httpRequestCounter
                 "put" "/api/items/:id" updateItem
                 (or_intror (or_intror (or_intror (or_intror (or_introl eq_refl)))))
                 (or_intror (or_intror (or_intror (or_introl eq_refl))))
                 eq_refl eq_refl eq_refl eq_refl).
  - exact (proj1 (proj2 (proj2 (proj2 http_surface)))
                 no_files (mkRequest "POST" "/api/items" None) httpRequestCounter addItem
                 (or_intror (or_intror (or_intror (or_introl eq_refl)))) eq_refl).
  - exact (proj2 (proj2 (proj2 (proj2 http_surface)))
                 one_page (mkRequest "GET" "/" None) httpRequestCounter
                 "<html></html>" eq_refl eq_refl eq_refl (or_introl eq_refl) eq_refl).
Defined.

(** ** The process *)

Import Process.

(** Printing the error of a request touches the console only. *)
Lemma log_error_keeps env fin w :
  Process.counter (log_error env fin w) = Process.counter w
  /\ init_calls (log_error env fin w) = init_calls w
  /\ init_pending (log_error env fin w) = init_pending w
  /\ teardown_calls (log_error env fin w) = teardown_calls w
  /\ teardown_pending (log_error env fin w) = teardown_pending w
  /\ listen_pending (log_error env fin w) = listen_pending w
  /\ listening (log_error env fin w) = listening w
  /\ exitCode (log_error env fin w) = exitCode w
  /\ exited (log_error env fin w) = exited w
  /\ alive (log_error env fin w) = alive w
  /\ exists lines, console (log_error env fin w) = (console w ++ lines)%list.
Proof.
  unfold log_error.
  destruct fin; try (repeat split; try reflexivity; exists []; symmetry; apply app_nil_r).
  destruct (logs_errors env);
    repeat split; try reflexivity; eexists; try reflexivity.
  symmetry; apply app_nil_r.
Qed.

Ltac log_error_fields env fin w :=
  let H := fresh "Hlog" in
  destruct (log_error_keeps env fin w)
    as [?Lcounter [?Linit [?Lipend [?Ltcalls [?Ltpend [?Llpend [?Llisten
         [?Lcode [?Lexited [?Lalive ?Lconsole]]]]]]]]]].

Lemma step_dead i w : alive w = false -> step i w = w.
Proof. unfold step. intros ->. reflexivity. Qed.

Lemma run_dead ins w : alive w = false -> run ins w = w.
Proof.
  induction ins as [|i ins IH]; intros H; simpl; auto.
  rewrite step_dead by exact H. auto.
Qed.

Lemma settle_init_chain o w :
  alive w = true ->
  settle init_chain o w =
  match o with
  | Fulfilled => app_listen 3000 w
  | Rejected err => process_exit (Some 1%Z) (print (Error err) w)
  end.
Proof.
  intros H. unfold init_chain. cbn [settle]. rewrite H.
  destruct o; [destruct (alive _)|]; reflexivity.
Qed.

Lemma settle_teardown_chain o w :
  alive w = true -> settle teardown_chain o w = process_exit None w.
Proof.
  intros H. unfold teardown_chain. cbn [settle]. rewrite H.
  destruct o; [|destruct (alive _)]; reflexivity.
Qed.

Lemma step_counter i w :
  Process.counter (step i w) =
  match i with
  | Incoming env req =>
      if alive w then match listening w with
                      | Some _ => counter_after env req (Process.counter w)
                      | None => Process.counter w
                      end
      else Process.counter w
  | _ => Process.counter w
  end.
Proof.
  unfold step. destruct (alive w) eqn:Ha; [|destruct i; reflexivity].
  destruct i; try reflexivity.
  - destruct (init_pending w); [|reflexivity].
    rewrite settle_init_chain by exact Ha. destruct o; reflexivity.
  - destruct (listen_pending w); reflexivity.
  - destruct (listen_pending w); reflexivity.
  - destruct (listening w); [|reflexivity].
    match goal with |- context [log_error ?e ?f ?x] => log_error_fields e f x end.
    rewrite Lcounter. reflexivity.
  - destruct s; reflexivity.
  - destruct (teardown_pending w); [reflexivity|].
    rewrite settle_teardown_chain by exact Ha. reflexivity.
Qed.

Lemma step_exitCode i w : exitCode (step i w) = exitCode w.
Proof.
  unfold step. destruct (alive w) eqn:Ha; [|reflexivity].
  destruct i; try reflexivity.
  - destruct (init_pending w); [|reflexivity].
    rewrite settle_init_chain by exact Ha. destruct o; reflexivity.
  - destruct (listen_pending w); reflexivity.
  - destruct (listen_pending w); reflexivity.
  - destruct (listening w); [|reflexivity].
    match goal with |- context [log_error ?e ?f ?x] => log_error_fields e f x end.
    rewrite Lcode. reflexivity.
  - destruct s; reflexivity.
  - destruct (teardown_pending w); [reflexivity|].
    rewrite settle_teardown_chain by exact Ha. reflexivity.
Qed.

Lemma run_exitCode ins : forall w, exitCode (run ins w) = exitCode w.
Proof.
  induction ins as [|i ins IH]; intros w; simpl; auto.
  rewrite IH. apply step_exitCode.
Qed.

Lemma run_app ins1 ins2 w : run (ins1 ++ ins2) w = run ins2 (run ins1 w).
Proof. revert w. induction ins1; intros; simpl; auto. Qed.

Lemma step_count_le i w m :
  (count m (Process.counter w) <= count m (Process.counter (step i w)))%N.
Proof.
  rewrite step_counter. destruct i; try lia.
  destruct (alive w); [|lia]. destruct (listening w); [|lia].
  apply count_after_le.
Qed.

Lemma run_count_le ins : forall w m,
  (count m (Process.counter w) <= count m (Process.counter (run ins w)))%N.
Proof.
  induction ins as [|i ins IH]; intros w m; simpl; [lia|].
  etransitivity; [apply step_count_le|apply IH].
Qed.

(** A whole life of the process: start, two requests, a signal, one more
    request while teardown is pending, exit. *)
Example a_run_of_the_process :
  let w := run [ InitSettles Fulfilled; Bound;
                 Incoming no_files (mkRequest "GET" "/api/items" None);
                 Incoming no_files (mkRequest "GET" "/metrics" None);
                 Kill SIGTERM;
                 Incoming no_files (mkRequest "POST" "/api/items" None);
                 TeardownSettles (Rejected "connection lost") ] boot in
  phase w = STOPPED (Code 0)
  /\ PromClient.values (Process.counter w) = [("GET", 1%N); ("POST", 1%N)]
  /\ console w = [Log "Listening on port 3000"]
  /\ init_calls w = 1 /\ teardown_calls w = 1.
Proof. repeat split; reflexivity. Qed.

(** A request that ends in an error is printed by the default error
    handler; a failed bind is reported by the runtime. *)
Example errors_on_the_terminal :
  console (run [ InitSettles Fulfilled; Bound;
                 Incoming no_files (mkRequest "POST" "/api/items" (Some 400%N)) ] boot)
  = [Log "Listening on port 3000"; RequestError 400]
  /\ console (run [InitSettles Fulfilled; BindFails "EADDRINUSE"] boot)
     = [Uncaught "EADDRINUSE"]
  /\ exited (run [InitSettles Fulfilled; BindFails "EADDRINUSE"] boot) = Some (Code 1).
Proof. repeat split; reflexivity. Qed.

(** C8. The process has one counter, keyed by the request method. It starts
    with every count at zero, and no input to the process (a settled promise,
    a bound or failed listener, a request, a signal) ever lowers the count of
    any method, neither in one step nor over a whole run. *)
Theorem method_counts_never_decrease :
  PromClient.labelNames (Process.counter boot) = ["method"]
  /\ (forall m, count m (Process.counter boot) = 0%N)
  /\ (forall i w m,
        (count m (Process.counter w) <= count m (Process.counter (step i w)))%N)
  /\ (forall ins w m,
        (count m (Process.counter w) <= count m (Process.counter (run ins w)))%N).
Proof.
  split; [reflexivity|]. split; [reflexivity|].
  split; [exact step_count_le|]. intros ins w m. apply run_count_le.
Qed.

Lemma not_listening_before_init ins :
  forall w, listening w = None -> listen_pending w = None ->
            forallb (fun i => negb (is_init_settles i)) ins = true ->
            listening (run ins w) = None /\ listen_pending (run ins w) = None.
Proof.
  induction ins as [|i ins IH]; intros w Hl Hp Hins; simpl; [auto|].
  simpl in Hins. apply andb_prop in Hins. destruct Hins as [Hi Hins].
  apply IH; auto; unfold step; destruct (alive w) eqn:Ha; auto;
    destruct i; try discriminate Hi; rewrite ?Hl, ?Hp; auto.
  - destruct s; simpl; auto.
  - destruct (teardown_pending w); auto.
    rewrite settle_teardown_chain by exact Ha. exact Hl.
  - destruct s; simpl; auto.
  - destruct (teardown_pending w); auto.
    rewrite settle_teardown_chain by exact Ha. exact Hp.
Qed.

(** C2. index.js calls db.init() once and binds nothing until its promise
    settles. When it is fulfilled, app.listen(3000) is called, and once the
    socket is bound the process is LISTENING on port 3000. When it is
    rejected, the error is printed with console.error and the process exits
    with code 1; whatever comes afterwards, the listener is never asked for
    nor bound, and db.init() is not called a second time. *)
Theorem listener_binds_only_after_init :
  init_calls boot = 1 /\ init_pending boot = true /\ phase boot = STARTING
  /\ (forall ins,
        forallb (fun i => negb (is_init_settles i)) ins = true ->
        listening (run ins boot) = None /\ listen_pending (run ins boot) = None)
  /\ (let w := step (InitSettles Fulfilled) boot in
      listen_pending w = Some 3000%N /\ exited w = None /\ console w = []
      /\ phase (step Bound w) = LISTENING 3000
      /\ console (step Bound w) = [Log "Listening on port 3000"])
  /\ (forall err rest,
        let w := run (InitSettles (Rejected err) :: rest) boot in
        exited w = Some (Code 1) /\ 1%Z <> 0%Z
        /\ console w = [Error err]
        /\ listening w = None /\ listen_pending w = None
        /\ init_calls w = 1).
Proof.
  split; [reflexivity|]. split; [reflexivity|]. split; [reflexivity|].
  split; [intros ins H; apply not_listening_before_init; auto|].
  split; [cbv zeta; repeat split; reflexivity|].
  intros err rest w. subst w. cbn [run].
  rewrite run_dead by reflexivity.
  repeat split; try reflexivity. discriminate.
Qed.

Lemma listener_binds_only_after_init_witness :
  listening (run [Kill SIGHUP; Bound] boot) = None
  /\ listen_pending (run [Kill SIGHUP; Bound] boot) = None.
Proof.
  exact (proj1 (proj2 (proj2 (proj2 listener_binds_only_after_init)))
               [Kill SIGHUP; Bound] eq_refl).
Defined.

Lemma exits_once_teardown_settles ins :
  forall w o, (0 < teardown_pending w)%nat \/ alive w = false ->
              alive (run (ins ++ [TeardownSettles o])%list w) = false.
Proof.
  induction ins as [|i ins IH]; intros w o Hw; simpl.
  - unfold step. destruct (alive w) eqn:Ha; [|exact Ha].
    destruct Hw as [Hw|Hw]; [|discriminate].
    destruct (teardown_pending w); [lia|].
    rewrite settle_teardown_chain by exact Ha. reflexivity.
  - apply IH. unfold step. destruct (alive w) eqn:Ha; [|auto].
    destruct Hw as [Hw|Hw]; [|discriminate].
    destruct i.
    + destruct (init_pending w); auto.
      rewrite settle_init_chain by exact Ha. destruct o0; [left; exact Hw|right; reflexivity].
    + destruct (listen_pending w); auto.
    + destruct (listen_pending w); auto.
    + destruct (listening w); auto.
      match goal with |- context [log_error ?e ?f ?x] => log_error_fields e f x end.
      left. rewrite Ltpend. exact Hw.
    + destruct s; simpl; auto.
    + destruct (teardown_pending w); [lia|].
      rewrite settle_teardown_chain by exact Ha. right; reflexivity.
Qed.

Lemma handled_runs_gracefulShutdown s w :
  In s handled_signals -> alive w = true -> step (Kill s) w = gracefulShutdown w.
Proof.
  intros Hs Ha. unfold step. rewrite Ha.
  destruct Hs as [<-|[<-|[<-|[]]]]; reflexivity.
Qed.

(** C3. After a handled signal the process runs db.teardown() once and
    exits as soon as that promise settles, fulfilled or rejected alike: a
    rejection is swallowed (nothing is printed, no other code runs), and the
    exit is reached through process.exit. Whatever else happens to the
    process between the signal and the settling, it has exited afterwards. *)
Theorem teardown_outcome_never_blocks_exit :
  (forall w s o,
     In s handled_signals -> alive w = true ->
     let w' := run [Kill s; TeardownSettles o] w in
     (exists c, exited w' = Some (Code c))
     /\ console w' = console w
     /\ teardown_calls w' = S (teardown_calls w)
     /\ w' = run [Kill s; TeardownSettles Fulfilled] w)
  /\ (forall w s o between,
        In s handled_signals -> alive w = true ->
        alive (run (Kill s :: between ++ [TeardownSettles o])%list w) = false).
Proof.
  split.
  - intros w s o Hs Ha w'. subst w'. cbn [run].
    rewrite !handled_runs_gracefulShutdown by assumption.
    unfold step. assert (alive (gracefulShutdown w) = true) as -> by exact Ha.
    cbn [gracefulShutdown set_teardown teardown_pending teardown_calls].
    rewrite !settle_teardown_chain by exact Ha.
    repeat split; try reflexivity. eexists; reflexivity.
  - intros w s o between Hs Ha. cbn [run].
    apply exits_once_teardown_settles. left.
    rewrite handled_runs_gracefulShutdown by assumption. simpl. lia.
Qed.

Lemma teardown_outcome_never_blocks_exit_witness :
  exists c, exited (run [Kill SIGTERM; TeardownSettles (Rejected "gone")] boot) = Some (Code c).
Proof.
  exact (proj1 (proj1 teardown_outcome_never_blocks_exit boot SIGTERM (Rejected "gone")
                      (or_intror (or_introl eq_refl)) eq_refl)).
Defined.

(** C4. SIGINT, SIGTERM and SIGUSR2 are registered with one and the same
    listener, gracefulShutdown; delivering any of the three to a running
    process is that function (db.teardown() is called, and the exit follows
    when its promise settles), so every run continues identically whichever
    of the three arrived. *)
Theorem handled_signals_share_one_listener :
  listener SIGINT = Some gracefulShutdown
  /\ listener SIGTERM = Some gracefulShutdown
  /\ listener SIGUSR2 = Some gracefulShutdown
  /\ (forall w rest,
        run (Kill SIGINT :: rest) w = run (Kill SIGTERM :: rest) w
        /\ run (Kill SIGTERM :: rest) w = run (Kill SIGUSR2 :: rest) w)
  /\ (forall s w o,
        In s handled_signals -> alive w = true ->
        step (Kill s) w = gracefulShutdown w
        /\ run [Kill s; TeardownSettles o] w
           = process_exit None (set_teardown (S (teardown_calls w)) (teardown_pending w) w)).
Proof.
  split; [reflexivity|]. split; [reflexivity|]. split; [reflexivity|].
  split.
  - intros w rest. cbn [run]. unfold step. destruct (alive w); split; reflexivity.
  - intros s w o Hs Ha. split; [apply handled_runs_gracefulShutdown; assumption|].
    cbn [run]. rewrite handled_runs_gracefulShutdown by assumption.
    unfold step. assert (alive (gracefulShutdown w) = true) as -> by exact Ha.
    cbn [gracefulShutdown set_teardown teardown_pending teardown_calls].
    rewrite settle_teardown_chain by exact Ha. reflexivity.
Qed.

Lemma handled_signals_share_one_listener_witness :
  step (Kill SIGUSR2) boot = gracefulShutdown boot
  /\ run [Kill SIGUSR2; TeardownSettles Fulfilled] boot
     = process_exit None (set_teardown 1 0 boot).
Proof.
  exact (proj2 (proj2 (proj2 (proj2 handled_signals_share_one_listener)))
               SIGUSR2 boot Fulfilled (or_intror (or_intror (or_introl eq_refl))) eq_refl).
Defined.

(** C10. gracefulShutdown ends in process.exit() without an argument, and
    nothing in the program ever sets process.exitCode; so at any point of
    any run of the process, a handled signal followed by the settling of
    teardown (fulfilled or rejected) exits with code 0, whereas a failed
    start exits with code 1. *)
Theorem graceful_shutdown_exits_with_code_zero :
  (forall ins, exitCode (run ins boot) = None)
  /\ (forall ins s o,
        In s handled_signals -> alive (run ins boot) = true ->
        exited (run (ins ++ [Kill s; TeardownSettles o])%list boot) = Some (Code 0))
  /\ (forall err, exited (run [InitSettles (Rejected err)] boot) = Some (Code 1)).
Proof.
  split; [intros ins; apply run_exitCode|].
  split; [|reflexivity].
  intros ins s o Hs Ha. rewrite run_app.
  pose proof (run_exitCode ins boot) as Hc. simpl (exitCode boot) in Hc.
  set (w := run ins boot) in *. cbn [run].
  rewrite handled_runs_gracefulShutdown by assumption.
  unfold step. assert (alive (gracefulShutdown w) = true) as -> by exact Ha.
  cbn [gracefulShutdown set_teardown teardown_pending teardown_calls].
  rewrite settle_teardown_chain by exact Ha.
  unfold process_exit. simpl. rewrite Hc. reflexivity.
Qed.

Lemma graceful_shutdown_exits_with_code_zero_witness :
  exited (run ([InitSettles Fulfilled; Bound] ++ [Kill SIGINT; TeardownSettles (Rejected "gone")])%list
              boot) = Some (Code 0).
Proof.
  exact (proj1 (proj2 graceful_shutdown_exits_with_code_zero)
               [InitSettles Fulfilled; Bound] SIGINT (Rejected "gone")
               (or_introl eq_refl) eq_refl).
Defined.

(** * Further properties of index.js *)

(** ** Counting *)

Lemma count_after env req c m :
  count m (counter_after env req c)
  = (count m c + if counted m req then 1 else 0)%N.
Proof.
  rewrite counter_after_eq. unfold counted.
  destruct (is_api (path req)); cbn [andb]; [|lia].
  unfold count. simpl PromClient.values.
  destruct (String.eqb (method req) m) eqn:E.
  - apply String.eqb_eq in E. subst m. apply get_inc_same.
  - rewrite get_inc_other; [lia|].
    intros ->. rewrite String.eqb_refl in E. discriminate E.
Qed.

Lemma step_incoming env req w :
  alive w = true -> listening w <> None ->
  step (Incoming env req) w
  = log_error env (final env req (Process.counter w))
              (set_counter (counter_after env req (Process.counter w)) w).
Proof.
  intros Ha Hl. unfold step. rewrite Ha.
  destruct (listening w); [reflexivity|contradiction].
Qed.

(** A run of requests through a listening process. *)
Lemma incoming_run reqs : forall w m,
  alive w = true -> listening w <> None ->
  alive (run (incoming reqs) w) = true
  /\ listening (run (incoming reqs) w) = listening w
  /\ teardown_pending (run (incoming reqs) w) = teardown_pending w
  /\ count m (Process.counter (run (incoming reqs) w))
     = (count m (Process.counter w)
        + N.of_nat (length (filter (fun er => counted m (snd er)) reqs)))%N.
Proof.
  induction reqs as [|[env req] reqs IH]; intros w m Ha Hl.
  - simpl. repeat split; auto. lia.
  - cbn [incoming map run fst snd]. fold (incoming reqs).
    rewrite step_incoming by assumption.
    match goal with |- context [log_error ?e ?f ?x] => log_error_fields e f x end.
    match goal with
    | |- context [run (incoming reqs) ?x] =>
        assert (Ha1 : alive x = true) by (rewrite Lalive; exact Ha);
        assert (Hl1 : listening x <> None) by (rewrite Llisten; exact Hl);
        destruct (IH x m Ha1 Hl1) as [H1 [H2 [H3 H4]]]
    end.
    rewrite H1, H2, H3, H4, Llisten, Ltpend, Lcounter.
    cbn [set_counter Process.counter filter snd listening teardown_pending].
    rewrite count_after.
    repeat split. destruct (counted m req); cbn [length]; lia.
Qed.

(** X1. While the process is listening, the count of a method after any
    sequence of requests is its count before plus the number of those
    requests that have this method and a path starting with '/api': no
    request is counted twice, none is lost, whatever their bodies, the static
    directory or the way they end. *)
Theorem counter_counts_api_requests :
  forall reqs w m,
    alive w = true -> listening w <> None ->
    count m (Process.counter (run (incoming reqs) w))
    = (count m (Process.counter w)
       + N.of_nat (length (filter (fun er => counted m (snd er)) reqs)))%N.
Proof.
  intros reqs w m Ha Hl. exact (proj2 (proj2 (proj2 (incoming_run reqs w m Ha Hl)))).
Qed.

Lemma counter_counts_api_requests_witness :
  count "GET"
        (Process.counter
           (run (incoming [ (no_files, mkRequest "GET" "/api/items" None);
                            (no_files, mkRequest "POST" "/api/items" (Some 400%N));
                            (no_files, mkRequest "GET" "/index.html" None);
                            (no_files, mkRequest "GET" "/apifoo" None) ])
                (run [InitSettles Fulfilled; Bound] boot)))
  = 2%N.
Proof.
  refine (counter_counts_api_requests _ (run [InitSettles Fulfilled; Bound] boot) "GET"
                                      eq_refl _).
  discriminate.
Defined.

(** ** Routes and the counter *)

(** A request for one of the five API routes, accepted by the body parser
    and not answered by a static file. *)
Lemma api_route_served env req c verb pattern h :
  In (verb, pattern, h) (routes app) -> In h api_handlers ->
  handles_method verb (method req) = true ->
  match_path (decodes env) pattern (path req) = Matched ->
  body_error req = None -> static_hit env req = false ->
  handleRequest env req c
  = (mkReqState (if is_api (path req) then PromClient.inc (method req) c else c) fresh_res,
     [metricsMiddleware; jsonParser; serveStatic; h], Responded).
Proof.
  intros Hin Hapi Hh HM Hb Hst.
  assert (Hin' : In (verb, pattern, h) (routes (skipn 4 app))).
  { simpl in Hin. destruct Hin as [E|Hin]; [|exact Hin].
    inversion E; subst. simpl in Hapi. intuition discriminate. }
  assert (HP : In pattern patterns /\ pattern <> "/metrics").
  { simpl in Hin'. simpl.
    repeat (destruct Hin' as [E|Hin']; [inversion E; split; [tauto|discriminate]|]).
    contradiction. }
  assert (Hmet : match_path (decodes env) "/metrics" (path req) = NoMatch)
    by (apply (matched_patterns_exclusive _ _ pattern "/metrics");
        [tauto|simpl; tauto|tauto|exact HM]).
  assert (Hhit : metrics_hit env req = false) by (unfold metrics_hit; now rewrite Hmet).
  rewrite handleRequest_cases, Hhit. cbv zeta.
  rewrite below_metrics_route, Hb, Hst.
  rewrite (api_routes_dispatch env req _ _ verb pattern h Hin' Hh HM).
  reflexivity.
Qed.

(** X2. The routes match paths without regard to case, the test of the
    metrics middleware does not: a request that an API route serves but
    whose path does not start with the lower-case '/api' reaches its handler
    without being counted. Every one of the five API routes can be reached
    that way. *)
Theorem api_route_can_serve_uncounted :
  (forall env req c verb pattern h,
     In (verb, pattern, h) (routes app) -> In h api_handlers ->
     handles_method verb (method req) = true ->
     match_path (decodes env) pattern (path req) = Matched ->
     body_error req = None -> static_hit env req = false ->
     is_api (path req) = false ->
     trace env req c = [metricsMiddleware; jsonParser; serveStatic; h]
     /\ final env req c = Responded
     /\ counter_after env req c = c)
  /\ (forall verb pattern h c,
        In (verb, pattern, h) (routes app) -> In h api_handlers ->
        exists req,
          is_api (path req) = false
          /\ trace no_files req c = [metricsMiddleware; jsonParser; serveStatic; h]
          /\ counter_after no_files req c = c).
Proof.
  split.
  - intros env req c verb pattern h Hin Hapi Hh HM Hb Hst Hna.
    unfold trace, final, counter_after.
    rewrite (api_route_served env req c verb pattern h) by assumption.
    rewrite Hna. repeat split; reflexivity.
  - intros verb pattern h c Hin Hapi. simpl in Hin.
    destruct Hin as [E|[E|[E|[E|[E|[E|[]]]]]]]; inversion E; subst verb pattern h; clear E.
    + exfalso. simpl in Hapi. intuition discriminate.
    + exists (mkRequest "GET" "/API/greeting" None). repeat split; reflexivity.
    + exists (mkRequest "GET" "/API/items" None). repeat split; reflexivity.
    + exists (mkRequest "POST" "/API/items" None). repeat split; reflexivity.
    + exists (mkRequest "PUT" "/Api/items/7" None). repeat split; reflexivity.
    + exists (mkRequest "DELETE" "/Api/items/7" None). repeat split; reflexivity.
Qed.

Lemma api_route_can_serve_uncounted_witness :
  trace no_files (mkRequest "POST" "/API/Items" None) httpRequestCounter
  = [metricsMiddleware; jsonParser; serveStatic; addItem]
  /\ final no_files (mkRequest "POST" "/API/Items" None) httpRequestCounter = Responded
  /\ counter_after no_files (mkRequest "POST" "/API/Items" None) httpRequestCounter
     = httpRequestCounter.
Proof.
  exact (proj1 api_route_can_serve_uncounted
               no_files (mkRequest "POST" "/API/Items" None) httpRequestCounter
               "post" "/api/items" addItem
               (or_intror (or_intror (or_intror (or_introl eq_refl))))
               (or_intror (or_intror (or_introl eq_refl)))
               eq_refl eq_refl eq_refl eq_refl eq_refl).
Defined.

(** X3. The label of the counter is the method of the request, not the verb
    of the route: a HEAD request that a GET route of the API serves adds 1
    to the count of HEAD and leaves the count of GET as it was. *)
Theorem head_request_is_counted_as_head :
  forall env req c pattern h,
    In ("get", pattern, h) (routes app) -> In h api_handlers ->
    method req = "HEAD" ->
    match_path (decodes env) pattern (path req) = Matched ->
    body_error req = None -> static_hit env req = false ->
    is_api (path req) = true ->
    trace env req c = [metricsMiddleware; jsonParser; serveStatic; h]
    /\ count "HEAD" (counter_after env req c) = (count "HEAD" c + 1)%N
    /\ count "GET" (counter_after env req c) = count "GET" c.
Proof.
  intros env req c pattern h Hin Hapi Hm HM Hb Hst Hisapi.
  assert (Hh : handles_method "get" (method req) = true) by (rewrite Hm; reflexivity).
  split.
  - unfold trace. rewrite (api_route_served env req c "get" pattern h) by assumption.
    reflexivity.
  - rewrite !count_after. unfold counted. rewrite Hisapi, Hm.
    change (String.eqb "HEAD" "HEAD") with true.
    change (String.eqb "HEAD" "GET") with false.
    cbn [andb]. split; lia.
Qed.

Lemma head_request_is_counted_as_head_witness :
  trace no_files (mkRequest "HEAD" "/api/items" None) httpRequestCounter
  = [metricsMiddleware; jsonParser; serveStatic; getItems]
  /\ count "HEAD" (counter_after no_files (mkRequest "HEAD" "/api/items" None)
                                 httpRequestCounter) = 1%N
  /\ count "GET" (counter_after no_files (mkRequest "HEAD" "/api/items" None)
                                httpRequestCounter) = 0%N.
Proof.
  exact (head_request_is_counted_as_head
           no_files (mkRequest "HEAD" "/api/items" None) httpRequestCounter
           "/api/items" getItems
           (or_intror (or_intror (or_introl eq_refl)))
           (or_intror (or_introl eq_refl))
           eq_refl eq_refl eq_refl eq_refl eq_refl).
Defined.



(** ** What leaves the counter alone *)

Lemma step_not_api i w :
  not_api_request i -> Process.counter (step i w) = Process.counter w.
Proof.
  intros H. rewrite step_counter. destruct i; try reflexivity.
  destruct (alive w); [|reflexivity]. destruct (listening w); [|reflexivity].
  rewrite counter_after_eq. simpl in H. rewrite H. reflexivity.
Qed.

(** X4. Only requests for paths starting with '/api' ever change the
    counter: over any run of the process in which no such request arrives,
    the counter stays exactly as it was. In particular a request whose path
    matches the route of '/metrics' is never counted, whatever its method, so
    no number of scrapes changes what the next scrape reports. *)
Theorem only_api_requests_change_the_counter :
  (forall ins w,
     Forall not_api_request ins ->
     Process.counter (run ins w) = Process.counter w)
  /\ (forall env req,
        match_path (decodes env) "/metrics" (path req) = Matched ->
        not_api_request (Incoming env req))
  /\ (forall env1 req1 env2 req2 c,
        method req1 = "GET" -> method req2 = "GET" ->
        match_path (decodes env1) "/metrics" (path req1) = Matched ->
        match_path (decodes env2) "/metrics" (path req2) = Matched ->
        ended (res_after env2 req2 (counter_after env1 req1 c))
        = ended (res_after env1 req1 c)).
Proof.
  split; [|split].
  - induction ins as [|i ins IH]; intros w Hall; [reflexivity|].
    inversion Hall; subst. cbn [run]. rewrite IH by assumption.
    apply step_not_api. assumption.
  - intros env req HM. simpl. eapply metrics_path_not_api. exact HM.
  - intros env1 req1 env2 req2 c Hm1 Hm2 HM1 HM2.
    assert (Hhit1 : metrics_hit env1 req1 = true)
      by (unfold metrics_hit; rewrite HM1, Hm1; reflexivity).
    assert (Hhit2 : metrics_hit env2 req2 = true)
      by (unfold metrics_hit; rewrite HM2, Hm2; reflexivity).
    rewrite counter_after_eq, (metrics_path_not_api _ _ HM1).
    unfold res_after. rewrite !handleRequest_cases, Hhit1, Hhit2.
    rewrite (metrics_path_not_api _ _ HM1), (metrics_path_not_api _ _ HM2).
    reflexivity.
Qed.

Lemma only_api_requests_change_the_counter_witness :
  Process.counter
    (run [ Incoming no_files (mkRequest "GET" "/metrics" None);
           Bound;
           Incoming one_page (mkRequest "GET" "/index.html" None);
           Incoming no_files (mkRequest "POST" "/METRICS/" None) ]
         (run [InitSettles Fulfilled; Bound;
               Incoming no_files (mkRequest "GET" "/api/items" None)] boot))
  = PromClient.inc "GET" httpRequestCounter.
Proof.
  refine (proj1 only_api_requests_change_the_counter _
                (run [InitSettles Fulfilled; Bound;
                      Incoming no_files (mkRequest "GET" "/api/items" None)] boot) _).
  repeat constructor.
Defined.

(** ** Requests that nothing answers *)

Section NoRoute.
Context {C S : Type}.
Variable invoke : C -> Request -> S -> S * Completion.
Variable decodes : string -> bool.

End NoRoute.



(** ** The life of the process *)

Lemma step_alive_cases i w :
  alive w = true ->
  step i w =
  match i with
  | InitSettles Fulfilled =>
      if init_pending w then app_listen 3000 (set_init (init_calls w) false w) else w
  | InitSettles (Rejected err) =>
      if init_pending w
      then process_exit (Some 1%Z) (print (Error err) (set_init (init_calls w) false w))
      else w
  | Bound =>
      match listen_pending w with
      | Some port => print (Log "Listening on port 3000") (set_listen None (Some port) w)
      | None => w
      end
  | BindFails err =>
      match listen_pending w with
      | Some _ => set_exited (Code 1) (print (Uncaught err) (set_listen None (listening w) w))
      | None => w
      end
  | Incoming env req =>
      match listening w with
      | Some _ =>
          log_error env (final env req (Process.counter w))
                    (set_counter (counter_after env req (Process.counter w)) w)
      | None => w
      end
  | Kill s =>
      match listener s with
      | Some f => f w
      | None => set_exited (KilledBy s) w
      end
  | TeardownSettles _ =>
      match teardown_pending w with
      | S n => process_exit None (set_teardown (teardown_calls w) n w)
      | O => w
      end
  end.
Proof.
  intros Ha. unfold step. rewrite Ha. destruct i; try reflexivity.
  - destruct (init_pending w); [|destruct o; reflexivity].
    rewrite settle_init_chain by exact Ha. destruct o; reflexivity.
  - destruct (teardown_pending w); [reflexivity|].
    rewrite settle_teardown_chain by exact Ha. reflexivity.
Qed.

Ltac step_cases i w Ha :=
  destruct (alive w) eqn:Ha;
  [ rewrite (step_alive_cases i w Ha) | rewrite (step_dead i w Ha) ].

Lemma run_invariant (P : World -> Prop) :
  (forall i w, P w -> P (step i w)) ->
  forall ins w, P w -> P (run ins w).
Proof.
  intros Hstep. induction ins as [|i ins IH]; intros w Hw; simpl; auto.
Qed.

Lemma not_listening_without_fulfilment i w :
  i <> InitSettles Fulfilled ->
  listening w = None -> listen_pending w = None ->
  listening (step i w) = None /\ listen_pending (step i w) = None.
Proof.
  intros Hi Hl Hp. step_cases i w Ha; [|auto].
  destruct i as [[|err]| |err|env req|s|o]; try contradiction;
    rewrite ?Hl, ?Hp; auto.
  - destruct (init_pending w); simpl; auto.
  - destruct s; simpl; auto.
  - destruct (teardown_pending w); simpl; auto.
Qed.

Lemma not_listening_without_bind i w :
  i <> Bound -> listening w = None -> listening (step i w) = None.
Proof.
  intros Hi Hl. step_cases i w Ha; [|auto].
  destruct i as [[|err]| |err|env req|s|o]; try contradiction; rewrite ?Hl; auto.
  - destruct (init_pending w); simpl; auto.
  - destruct (init_pending w); simpl; auto.
  - destruct (listen_pending w); simpl; auto.
  - destruct s; simpl; auto.
  - destruct (teardown_pending w); simpl; auto.
Qed.

(** X6. In every run of the process db.init() has been called exactly once,
    and the only port the listener is ever asked for or bound to is 3000.
    The listener is bound only in runs in which the promise of db.init() was
    fulfilled and the bind was reported. *)
Theorem init_once_and_port_3000 :
  (forall ins,
     let w := run ins boot in
     init_calls w = 1
     /\ (listen_pending w = None \/ listen_pending w = Some 3000%N)
     /\ (listening w = None \/ listening w = Some 3000%N))
  /\ (forall ins,
        listening (run ins boot) <> None ->
        In (InitSettles Fulfilled) ins /\ In Bound ins).
Proof.
  split.
  - intros ins.
    apply (run_invariant
             (fun w => init_calls w = 1
                       /\ (listen_pending w = None \/ listen_pending w = Some 3000%N)
                       /\ (listening w = None \/ listening w = Some 3000%N))).
    + intros i w [Hc [Hp Hl]]. step_cases i w Ha; [|auto].
      destruct i as [[|err]| |err|env req|s|o].
      * destruct (init_pending w); simpl; auto.
      * destruct (init_pending w); simpl; auto.
      * destruct Hp as [Hp|Hp]; rewrite Hp; simpl; auto.
      * destruct (listen_pending w) eqn:E; simpl; rewrite ?E; auto.
      * destruct (listening w) eqn:E; [|auto].
        match goal with |- context [log_error ?e ?f ?x] => log_error_fields e f x end.
        rewrite Linit, Llpend, Llisten. simpl. rewrite E. auto.
      * destruct s; simpl; auto.
      * destruct (teardown_pending w); simpl; auto.
    + simpl. auto.
  - intros ins Hl. split.
    + revert Hl.
      assert (H : forall w, listening w = None -> listen_pending w = None ->
                            listening (run ins w) <> None -> In (InitSettles Fulfilled) ins).
      { induction ins as [|i ins IH]; intros w Hl Hp Hrun; [contradiction|].
        cbn [run] in Hrun.
        assert (Hi : i = InitSettles Fulfilled \/ i <> InitSettles Fulfilled)
          by (destruct i as [[|err]| |err|env req|s|o]; (left; reflexivity) || (right; discriminate)).
        destruct Hi as [->|Hi]; [left; reflexivity|right].
        destruct (not_listening_without_fulfilment i w Hi Hl Hp) as [Hl' Hp'].
        exact (IH _ Hl' Hp' Hrun). }
      apply (H boot); reflexivity.
    + revert Hl.
      assert (H : forall w, listening w = None ->
                            listening (run ins w) <> None -> In Bound ins).
      { induction ins as [|i ins IH]; intros w Hl Hrun; [contradiction|].
        cbn [run] in Hrun.
        assert (Hi : i = Bound \/ i <> Bound)
          by (destruct i; (left; reflexivity) || (right; discriminate)).
        destruct Hi as [->|Hi]; [left; reflexivity|right].
        exact (IH _ (not_listening_without_bind i w Hi Hl) Hrun). }
      apply (H boot); reflexivity.
Qed.

Lemma init_once_and_port_3000_witness :
  In (InitSettles Fulfilled) [Kill SIGINT; InitSettles Fulfilled; Bound]
  /\ In Bound [Kill SIGINT; InitSettles Fulfilled; Bound].
Proof.
  refine (proj2 init_once_and_port_3000 [Kill SIGINT; InitSettles Fulfilled; Bound] _).
  discriminate.
Defined.

(** X7. However the process ends, it ends in one of three ways: with code 0,
    and then db.teardown() had been called; with code 1, and then either
    index.js had printed an error with console.error (the failed start) or
    the runtime had reported an uncaught exception (the failed bind); or
    killed by a signal that index.js does not listen to. No other exit code
    occurs in any run. *)
Theorem how_the_process_ends :
  forall ins e,
    exited (run ins boot) = Some e ->
    match e with
    | Code c =>
        (c = 0%Z /\ (0 < teardown_calls (run ins boot))%nat)
        \/ (c = 1%Z
            /\ ((exists err, In (Error err) (console (run ins boot)))
                \/ (exists err, In (Uncaught err) (console (run ins boot)))))
    | KilledBy s => listener s = None
    end.
Proof.
  intros ins.
  pose (P := fun w : World =>
               exitCode w = None
               /\ (teardown_pending w <= teardown_calls w)%nat
               /\ forall e, exited w = Some e ->
                    match e with
                    | Code c =>
                        (c = 0%Z /\ (0 < teardown_calls w)%nat)
                        \/ (c = 1%Z
                            /\ ((exists err, In (Error err) (console w))
                                \/ (exists err, In (Uncaught err) (console w))))
                    | KilledBy s => listener s = None
                    end).
  assert (HP : P (run ins boot)).
  { apply run_invariant.
    - intros i w [Hc [Hle He]]. step_cases i w Ha; [|repeat split; assumption].
      assert (Hnone : exited w = None)
        by (unfold alive in Ha; destruct (exited w); [discriminate Ha|reflexivity]).
      destruct i as [[|err]| |err|env req|s|o].
      + destruct (init_pending w); repeat split; simpl; auto.
      + destruct (init_pending w); [|repeat split; assumption].
        repeat split; simpl; auto.
        intros e E. inversion E; subst. right. split; [reflexivity|]. left.
        exists err. apply in_or_app. right. simpl. auto.
      + destruct (listen_pending w); repeat split; simpl; auto.
        intros e E. rewrite Hnone in E. discriminate E.
      + destruct (listen_pending w); [|repeat split; assumption].
        repeat split; simpl; auto.
        intros e E. inversion E; subst. right. split; [reflexivity|]. right.
        exists err. apply in_or_app. right. simpl. auto.
      + destruct (listening w); [|repeat split; assumption].
        match goal with |- context [log_error ?e ?f ?x] => log_error_fields e f x end.
        unfold P. rewrite Lcode, Ltpend, Ltcalls, Lexited. simpl.
        repeat split; auto.
        intros e E. rewrite Hnone in E. discriminate E.
      + destruct s; simpl; repeat split; simpl; auto; try lia.
        all: try (intros e E; rewrite Hnone in E; discriminate E).
        all: intros e E; inversion E; subst; reflexivity.
      + destruct (teardown_pending w) as [|n] eqn:Et;
          [repeat split; try assumption; rewrite Et; lia|].
        repeat split; simpl; try lia; auto.
        intros e E. unfold process_exit in E. simpl in E. rewrite Hc in E.
        inversion E; subst. left. split; [reflexivity|lia].
    - repeat split; simpl; auto. intros e E. discriminate E. }
  intros e E. exact (proj2 (proj2 HP) e E).
Qed.

Lemma how_the_process_ends_witness :
  (1%Z = 0%Z
   /\ (0 < teardown_calls (run [InitSettles Fulfilled; BindFails "EADDRINUSE"] boot))%nat)
  \/ (1%Z = 1%Z
      /\ ((exists err,
             In (Error err)
                (console (run [InitSettles Fulfilled; BindFails "EADDRINUSE"] boot)))
          \/ (exists err,
                In (Uncaught err)
                   (console (run [InitSettles Fulfilled; BindFails "EADDRINUSE"] boot))))).
Proof.
  exact (how_the_process_ends [InitSettles Fulfilled; BindFails "EADDRINUSE"] (Code 1) eq_refl).
Defined.

(** X8. A signal does not cancel the start. When a handled signal arrives
    while db.init() is still pending and the promise is then fulfilled,
    app.listen(3000) is called all the same, with teardown under way; when
    the promise is then rejected, the process exits with code 1, not with
    the 0 of a graceful shutdown. *)
Theorem signal_does_not_cancel_the_start :
  forall w s,
    alive w = true -> init_pending w = true -> In s handled_signals ->
    (let w' := run [Kill s; InitSettles Fulfilled] w in
     listen_pending w' = Some 3000%N /\ alive w' = true
     /\ teardown_pending w' = S (teardown_pending w))
    /\ (let w' := run [Kill s; InitSettles Fulfilled; Bound] w in
        listening w' = Some 3000%N /\ teardown_pending w' = S (teardown_pending w))
    /\ (forall err,
          exited (run [Kill s; InitSettles (Rejected err)] w) = Some (Code 1)).
Proof.
  intros w s Ha Hp Hs. cbn [run].
  rewrite handled_runs_gracefulShutdown by assumption.
  assert (Ha1 : alive (gracefulShutdown w) = true) by exact Ha.
  rewrite (step_alive_cases (InitSettles Fulfilled) (gracefulShutdown w) Ha1).
  cbn [gracefulShutdown set_teardown init_pending]. rewrite Hp.
  split; [|split].
  - repeat split; try reflexivity. exact Ha.
  - match goal with
    | |- context [step Bound ?x] =>
        assert (Ha2 : alive x = true) by exact Ha;
        rewrite (step_alive_cases Bound x Ha2)
    end.
    split; reflexivity.
  - intros err.
    match goal with
    | |- context [step (InitSettles (Rejected err)) ?x] =>
        rewrite (step_alive_cases (InitSettles (Rejected err)) x Ha1)
    end.
    cbn [gracefulShutdown set_teardown init_pending]. rewrite Hp. reflexivity.
Qed.

Lemma signal_does_not_cancel_the_start_witness :
  listening (run [Kill SIGINT; InitSettles Fulfilled; Bound] boot) = Some 3000%N
  /\ teardown_pending (run [Kill SIGINT; InitSettles Fulfilled; Bound] boot) = 1.
Proof.
  exact (proj1 (proj2 (signal_does_not_cancel_the_start
                         boot SIGINT eq_refl eq_refl (or_introl eq_refl)))).
Defined.

(** X9. gracefulShutdown has no guard against running twice: every handled
    signal that arrives before teardown has settled calls db.teardown()
    again. After any number of handled signals the process is still alive
    and still bound as before, with as many teardown promises pending as
    signals arrived. *)
Theorem every_signal_calls_teardown_again :
  forall sigs w,
    alive w = true -> Forall (fun s => In s handled_signals) sigs ->
    let w' := run (map Kill sigs) w in
    teardown_calls w' = teardown_calls w + length sigs
    /\ teardown_pending w' = teardown_pending w + length sigs
    /\ alive w' = true
    /\ listening w' = listening w
    /\ Process.counter w' = Process.counter w
    /\ console w' = console w.
Proof.
  induction sigs as [|s sigs IH]; intros w Ha Hall; cbv zeta.
  - simpl. repeat split; auto.
  - inversion Hall as [|s' sigs' Hs Hsigs]; subst. cbn [map run].
    rewrite handled_runs_gracefulShutdown by assumption.
    assert (Ha1 : alive (gracefulShutdown w) = true) by exact Ha.
    destruct (IH (gracefulShutdown w) Ha1 Hsigs) as [E1 [E2 [E3 [E4 [E5 E6]]]]].
    rewrite E1, E2, E3, E4, E5, E6. cbn [gracefulShutdown set_teardown teardown_calls
      teardown_pending listening Process.counter console length].
    repeat split; lia.
Qed.

Lemma every_signal_calls_teardown_again_witness :
  teardown_calls (run (map Kill [SIGINT; SIGINT; SIGTERM]) boot) = 3
  /\ teardown_pending (run (map Kill [SIGINT; SIGINT; SIGTERM]) boot) = 3
  /\ alive (run (map Kill [SIGINT; SIGINT; SIGTERM]) boot) = true.
Proof.
  refine (let H := every_signal_calls_teardown_again [SIGINT; SIGINT; SIGTERM] boot eq_refl _ in
          conj (proj1 H) (conj (proj1 (proj2 H)) (proj1 (proj2 (proj2 H))))).
  repeat constructor; simpl; tauto.
Defined.

(** X10. gracefulShutdown does not close the listener: between a handled
    signal and the settling of teardown the process keeps answering, and
    every request for a path under '/api' is still counted exactly once. *)
Theorem requests_are_served_while_teardown_is_pending :
  forall w s reqs m,
    alive w = true -> listening w <> None -> In s handled_signals ->
    let w' := run (Kill s :: incoming reqs) w in
    alive w' = true
    /\ listening w' = listening w
    /\ teardown_pending w' = S (teardown_pending w)
    /\ count m (Process.counter w')
       = (count m (Process.counter w)
          + N.of_nat (length (filter (fun er => counted m (snd er)) reqs)))%N.
Proof.
  intros w s reqs m Ha Hl Hs. cbv zeta. cbn [run].
  rewrite handled_runs_gracefulShutdown by assumption.
  assert (Ha1 : alive (gracefulShutdown w) = true) by exact Ha.
  assert (Hl1 : listening (gracefulShutdown w) <> None) by exact Hl.
  destruct (incoming_run reqs (gracefulShutdown w) m Ha1 Hl1) as [H1 [H2 [H3 _]]].
  rewrite H1, H2, H3.
  repeat split.
  exact (proj2 (proj2 (proj2 (incoming_run reqs (gracefulShutdown w) m Ha1 Hl1)))).
Qed.

Lemma requests_are_served_while_teardown_is_pending_witness :
  let w' := run (Kill SIGTERM
                 :: incoming [ (no_files, mkRequest "GET" "/api/items" None);
                               (no_files, mkRequest "GET" "/api/greeting" None) ])
                (run [InitSettles Fulfilled; Bound] boot) in
  alive w' = true
  /\ listening w' = Some 3000%N
  /\ teardown_pending w' = 1
  /\ count "GET" (Process.counter w') = 2%N.
Proof.
  refine (requests_are_served_while_teardown_is_pending
            (run [InitSettles Fulfilled; Bound] boot) SIGTERM
            [ (no_files, mkRequest "GET" "/api/items" None);
              (no_files, mkRequest "GET" "/api/greeting" None) ] "GET"
            eq_refl _ (or_intror (or_introl eq_refl))).
  discriminate.
Defined.

(** X12. db.teardown() is called only from the signal listeners: in a run
    in which none of SIGINT, SIGTERM and SIGUSR2 arrives, it is never called
    (in particular not when the start fails), and the process never exits
    with code 0. *)
Theorem teardown_only_on_handled_signal :
  forall ins,
    (forall s, In (Kill s) ins -> ~ In s handled_signals) ->
    teardown_calls (run ins boot) = 0
    /\ exited (run ins boot) <> Some (Code 0).
Proof.
  assert (H : forall ins w,
             (forall s, In (Kill s) ins -> ~ In s handled_signals) ->
             teardown_calls w = 0 -> teardown_pending w = 0 ->
             exited w <> Some (Code 0) ->
             teardown_calls (run ins w) = 0 /\ exited (run ins w) <> Some (Code 0)).
  { induction ins as [|i ins IH]; intros w Hk Hc Hp He; [simpl; auto|].
    cbn [run].
    assert (Hk' : forall s, In (Kill s) ins -> ~ In s handled_signals)
      by (intros s Hin; apply Hk; right; exact Hin).
    step_cases i w Ha; [|apply IH; assumption].
    destruct i as [[|err]| |err|env req|s|o].
    - destruct (init_pending w); apply IH; simpl; auto.
    - destruct (init_pending w); apply IH; simpl; auto. discriminate.
    - destruct (listen_pending w); apply IH; simpl; auto.
    - destruct (listen_pending w); apply IH; simpl; auto. discriminate.
    - destruct (listening w); [|apply IH; assumption].
      match goal with |- context [log_error ?e ?f ?x] => log_error_fields e f x end.
      apply IH; rewrite ?Ltcalls, ?Ltpend, ?Lexited; simpl; auto.
    - assert (Hs : ~ In s handled_signals) by (apply Hk; left; reflexivity).
      destruct s; simpl in Hs; try (exfalso; tauto);
        apply IH; simpl; auto; discriminate.
    - rewrite Hp. apply IH; assumption. }
  intros ins Hk. apply H; try reflexivity; [exact Hk|discriminate].
Qed.

Lemma teardown_only_on_handled_signal_witness :
  teardown_calls (run [InitSettles (Rejected "refused"); Kill SIGHUP] boot) = 0
  /\ exited (run [InitSettles (Rejected "refused"); Kill SIGHUP] boot) <> Some (Code 0).
Proof.
  refine (teardown_only_on_handled_signal [InitSettles (Rejected "refused"); Kill SIGHUP] _).
  intros s [E|[E|[]]]; [discriminate E|].
  inversion E. simpl. intros [H|[H|[H|[]]]]; discriminate H.
Defined.

(** ** The table of the counter *)

Lemma inc_keys m h k :
  In k (map fst (PromClient.inc_hashMap m h)) <-> k = m \/ In k (map fst h).
Proof.
  induction h as [|[k' v] h IH]; simpl.
  - split; [intros [<-|[]]; auto|intros [->|[]]; auto].
  - destruct (String.eqb k' m) eqn:E; simpl.
    + apply String.eqb_eq in E. subst k'. split; [auto|intros [->|H]; auto].
    + rewrite IH. tauto.
Qed.

Lemma inc_nodup m h :
  NoDup (map fst h) -> NoDup (map fst (PromClient.inc_hashMap m h)).
Proof.
  induction h as [|[k v] h IH]; simpl; intros Hnd.
  - constructor; [intros []|constructor].
  - inversion Hnd as [|x l Hnin Hnd']; subst.
    destruct (String.eqb k m) eqn:E; simpl.
    + constructor; assumption.
    + constructor; [|apply IH; exact Hnd'].
      rewrite inc_keys. intros [->|Hin]; [|contradiction].
      rewrite String.eqb_refl in E. discriminate E.
Qed.

Lemma inc_positive m h :
  Forall (fun kv => (0 < snd kv)%N) h ->
  Forall (fun kv => (0 < snd kv)%N) (PromClient.inc_hashMap m h).
Proof.
  induction h as [|[k v] h IH]; simpl; intros Hall.
  - constructor; [simpl; lia|constructor].
  - inversion Hall; subst. destruct (String.eqb k m); constructor; simpl in *; auto; lia.
Qed.

Lemma get_of_entry h : forall k v,
  NoDup (map fst h) -> In (k, v) h -> PromClient.get k h = v.
Proof.
  induction h as [|[k' v'] h IH]; simpl; intros k v Hnd Hin; [contradiction|].
  inversion Hnd as [|x l Hnin Hnd']; subst.
  destruct Hin as [E|Hin].
  - inversion E; subst. rewrite String.eqb_refl. reflexivity.
  - destruct (String.eqb k' k) eqn:E; [|apply IH; assumption].
    apply String.eqb_eq in E. subst k'. exfalso. apply Hnin.
    change k with (fst (k, v)). apply in_map. exact Hin.
Qed.

Lemma get_positive_iff h m :
  Forall (fun kv => (0 < snd kv)%N) h ->
  (In m (map fst h) <-> (0 < PromClient.get m h)%N).
Proof.
  induction h as [|[k v] h IH]; simpl; intros Hall.
  - split; [intros []|lia].
  - inversion Hall; subst. simpl in *.
    destruct (String.eqb k m) eqn:E.
    + apply String.eqb_eq in E. subst k. split; auto.
    + rewrite <- IH by assumption. split; [intros [->|H]; auto|auto].
      rewrite String.eqb_refl in E. discriminate E.
Qed.

(** X11. In every run of the process the table of the counter holds each
    method at most once and every count in it is at least 1: a method has an
    entry (a sample line in the metrics text) exactly when it has been
    counted, and the metric keeps its name and its single label. *)
Theorem counter_table_is_well_formed :
  forall ins,
    let c := Process.counter (run ins boot) in
    NoDup (map fst (PromClient.values c))
    /\ (forall k v, In (k, v) (PromClient.values c) -> (0 < v)%N /\ count k c = v)
    /\ (forall m, In m (map fst (PromClient.values c)) <-> (0 < count m c)%N)
    /\ PromClient.name c = "http_requests_api_total"
    /\ PromClient.labelNames c = ["method"].
Proof.
  intros ins.
  pose (P := fun w : World =>
               NoDup (map fst (PromClient.values (Process.counter w)))
               /\ Forall (fun kv => (0 < snd kv)%N) (PromClient.values (Process.counter w))
               /\ PromClient.name (Process.counter w) = "http_requests_api_total"
               /\ PromClient.labelNames (Process.counter w) = ["method"]).
  assert (HP : P (run ins boot)).
  { apply run_invariant.
    - intros i w [Hnd [Hpos [Hn Hl]]]. unfold P. rewrite step_counter.
      destruct i; try (repeat split; assumption).
      destruct (alive w); [|repeat split; assumption].
      destruct (listening w); [|repeat split; assumption].
      rewrite counter_after_eq.
      destruct (is_api (path req)); [|repeat split; assumption].
      simpl. repeat split; auto using inc_nodup, inc_positive.
    - repeat split; simpl; constructor. }
  destruct HP as [Hnd [Hpos [Hn Hl]]]. cbv zeta.
  split; [exact Hnd|]. split; [|split; [|split; assumption]].
  - intros k v Hin. split.
    + rewrite Forall_forall in Hpos. exact (Hpos _ Hin).
    + apply get_of_entry; assumption.
  - intros m. apply get_positive_iff. exact Hpos.
Qed.

Lemma counter_table_is_well_formed_witness :
  (0 < 2)%N
  /\ count "GET"
           (Process.counter
              (run [InitSettles Fulfilled; Bound;
                    Incoming no_files (mkRequest "GET" "/api/items" None);
                    Incoming no_files (mkRequest "PUT" "/api/items/3" None);
                    Incoming no_files (mkRequest "GET" "/api/greeting" None)] boot))
     = 2%N.
Proof.
  refine (proj1 (proj2 (counter_table_is_well_formed
                          [InitSettles Fulfilled; Bound;
                           Incoming no_files (mkRequest "GET" "/api/items" None);
                           Incoming no_files (mkRequest "PUT" "/api/items/3" None);
                           Incoming no_files (mkRequest "GET" "/api/greeting" None)]))
                "GET" 2%N _).
  left. reflexivity.
Defined.


(** ** Static answers under '/api' *)

(** X14. The static middleware is registered before the API routes and looks
    at every path. A GET or HEAD that it answers for a path under '/api' is
    answered from the static directory: no API handler runs, although the
    request is counted. *)
Theorem static_answer_shadows_api_routes :
  forall env req c content,
    is_api (path req) = true -> body_error req = None ->
    method req = "GET" \/ method req = "HEAD" ->
    static_answer env (path req) = Some content ->
    trace env req c = [metricsMiddleware; jsonParser; serveStatic]
    /\ final env req c = Responded
    /\ ended (res_after env req c)
       = Some (if String.eqb (method req) "HEAD" then "" else content)
    /\ count (method req) (counter_after env req c) = (count (method req) c + 1)%N.
Proof.
  intros env req c content Hapi Hb Hm Hs.
  assert (Hhit : metrics_hit env req = false).
  { unfold metrics_hit.
    destruct (match_path (decodes env) "/metrics" (path req)) eqn:HM; try reflexivity.
    rewrite (metrics_path_not_api _ _ HM) in Hapi. discriminate Hapi. }
  assert (Hst : static_hit env req = true).
  { unfold static_hit. rewrite Hs. destruct Hm as [-> | ->]; reflexivity. }
  unfold trace, final, res_after, counter_after.
  rewrite handleRequest_cases, Hhit, Hapi. cbv zeta.
  rewrite below_metrics_route, Hb, Hst, Hs.
  repeat split. apply get_inc_same.
Qed.

Lemma static_answer_shadows_api_routes_witness :
  let env := mkEnv (fun p => if String.eqb p "/api/items" then Some "a page" else None)
                   (fun _ => true) true in
  trace env (mkRequest "GET" "/api/items" None) httpRequestCounter
  = [metricsMiddleware; jsonParser; serveStatic]
  /\ final env (mkRequest "GET" "/api/items" None) httpRequestCounter = Responded
  /\ ended (res_after env (mkRequest "GET" "/api/items" None) httpRequestCounter)
     = Some "a page"
  /\ count "GET" (counter_after env (mkRequest "GET" "/api/items" None) httpRequestCounter)
     = 1%N.
Proof.
  exact (static_answer_shadows_api_routes
           (mkEnv (fun p => if String.eqb p "/api/items" then Some "a page" else None)
                  (fun _ => true) true)
           (mkRequest "GET" "/api/items" None) httpRequestCounter "a page"
           eq_refl eq_refl (or_introl eq_refl) eq_refl).
Defined.
